(** * myBuddy 280 ROS 2 wrapper: command dispatch, telemetry and start-up

    Shallow embedding of
    [mybuddy280_driver/mybuddy280_ros2_wrapper.py].  The node talks to three
    collaborators that live outside the file: the vendor Device Link
    ([pymycobot.MyBuddy]), the middleware ([rclpy]) and the clock.  They are
    an environment [Env] over an abstract world; every call the node makes
    is recorded, with the answer it got, in a trace of [Event]s. *)

From Stdlib Require Import ZArith Lia.
From Stdlib Require Import Floats.PrimFloat.
From Stdlib Require Import Floats.SpecFloat Floats.FloatOps Floats.FloatAxioms.
From stdpp Require Import base list strings.

Local Open Scope string_scope.
Local Open Scope list_scope.
Local Open Scope Z_scope.

(** ** Data model *)

(** Python exceptions that can travel through the node. *)
Inductive exn : Type :=
| SerialException
| AttributeError
| IndexError
| OtherError (what : string).

Inductive LogLevel : Type := Info | Warn | Error.

(** [sensor_msgs/JointState], the sub-record of the telemetry message. *)
Record JointState : Type := {
  name : list string;
  position : list float;
  velocity : list float;
  effort : list float;
  stamp : Z;
}.

(** [MyBuddy280Angles]: the telemetry message. *)
Record MyBuddy280Angles : Type := {
  left_arm : JointState;
  right_arm : JointState;
  waist : JointState;
}.

(** Request and response of the [MyBuddy280SendAngles] service. *)
Record Request : Type := {
  part_id : string;
  joint_number : list Z;
  angle : list float;
  speed : list Z;
}.

Record Response : Type := { result : string }.

(** A message as its constructor leaves it: empty sequences, zero stamp. *)
Definition JointState_new : JointState :=
  {| name := []; position := []; velocity := []; effort := []; stamp := 0 |}.

Definition MyBuddy280Angles_new : MyBuddy280Angles :=
  {| left_arm := JointState_new; right_arm := JointState_new;
     waist := JointState_new |}.

Definition set_name (v : list string) (js : JointState) : JointState :=
  {| name := v; position := position js; velocity := velocity js;
     effort := effort js; stamp := stamp js |}.
Definition set_position (v : list float) (js : JointState) : JointState :=
  {| name := name js; position := v; velocity := velocity js;
     effort := effort js; stamp := stamp js |}.
Definition set_velocity (v : list float) (js : JointState) : JointState :=
  {| name := name js; position := position js; velocity := v;
     effort := effort js; stamp := stamp js |}.
Definition set_effort (v : list float) (js : JointState) : JointState :=
  {| name := name js; position := position js; velocity := velocity js;
     effort := v; stamp := stamp js |}.
Definition set_stamp (v : Z) (js : JointState) : JointState :=
  {| name := name js; position := position js; velocity := velocity js;
     effort := effort js; stamp := v |}.

Definition on_left_arm (f : JointState → JointState) (m : MyBuddy280Angles) :=
  {| left_arm := f (left_arm m); right_arm := right_arm m; waist := waist m |}.
Definition on_right_arm (f : JointState → JointState) (m : MyBuddy280Angles) :=
  {| left_arm := left_arm m; right_arm := f (right_arm m); waist := waist m |}.
Definition on_waist (f : JointState → JointState) (m : MyBuddy280Angles) :=
  {| left_arm := left_arm m; right_arm := right_arm m; waist := f (waist m) |}.

(** What a read of the vendor library can hand back: nothing, a number,
    or a list.  A number, [int] or [float], is given by its value as a
    float, which is what [float(x)] makes of it. *)
#[local] Set Warnings "-register-all".
Inductive pyval : Type :=
| PyNone
| PyNum (f : float)
| PyList (l : list pyval).

(** A list of floats as a Python value. *)
Definition PyFloats (l : list float) : pyval := PyList (PyNum <$> l).

(** [TypeError], among the exceptions that are known by name. *)
Definition TypeError : exn := OtherError "TypeError".

(** Python's [float(x)]: the number itself; [None] and lists are refused. *)
Definition py_float (v : pyval) : exn + float :=
  match v with
  | PyNum f => inr f
  | _ => inl TypeError
  end.

(** [float] over the elements, in order, up to the first that is
    refused. *)
Fixpoint py_float_each (l : list pyval) : exn + list float :=
  match l with
  | [] => inr []
  | v :: l' =>
      match py_float v with
      | inl e => inl e
      | inr f =>
          match py_float_each l' with
          | inl e => inl e
          | inr fs => inr (f :: fs)
          end
      end
  end.

(** [[float(position) for position in angles]]: only a list can be
    iterated. *)
Definition py_float_list (angles : pyval) : exn + list float :=
  match angles with
  | PyList l => py_float_each l
  | _ => inl TypeError
  end.

(** The node object.  [executor] is the attribute [rclpy] keeps on every
    node; the others are the ones [__init__] assigns. *)
Inductive Executor : Type := MultiThreadedExecutor.

Record MyBuddy : Type := { mb_port : string; mb_baud : Z }.

Record Node : Type := {
  node_name : string;
  executor : option Executor;
  mc : option MyBuddy;
  publisher_joint_state : option string;
  timer_state : option float;
  srv_send_joint_angle : option string;
}.

(** [rclpy.node.Node.__init__]: a node that no executor has taken yet has
    no executor ([Node.executor] is [None] until [add_node]). *)
Definition Node_init (nm : string) : Node :=
  {| node_name := nm; executor := None; mc := None;
     publisher_joint_state := None; timer_state := None;
     srv_send_joint_angle := None |}.

Definition set_executor (v : option Executor) (n : Node) : Node :=
  {| node_name := node_name n; executor := v; mc := mc n;
     publisher_joint_state := publisher_joint_state n;
     timer_state := timer_state n;
     srv_send_joint_angle := srv_send_joint_angle n |}.
Definition set_mc (v : MyBuddy) (n : Node) : Node :=
  {| node_name := node_name n; executor := executor n; mc := Some v;
     publisher_joint_state := publisher_joint_state n;
     timer_state := timer_state n;
     srv_send_joint_angle := srv_send_joint_angle n |}.
Definition set_publisher_joint_state (v : string) (n : Node) : Node :=
  {| node_name := node_name n; executor := executor n; mc := mc n;
     publisher_joint_state := Some v; timer_state := timer_state n;
     srv_send_joint_angle := srv_send_joint_angle n |}.
Definition set_timer_state (v : float) (n : Node) : Node :=
  {| node_name := node_name n; executor := executor n; mc := mc n;
     publisher_joint_state := publisher_joint_state n;
     timer_state := Some v;
     srv_send_joint_angle := srv_send_joint_angle n |}.
Definition set_srv_send_joint_angle (v : string) (n : Node) : Node :=
  {| node_name := node_name n; executor := executor n; mc := mc n;
     publisher_joint_state := publisher_joint_state n;
     timer_state := timer_state n; srv_send_joint_angle := Some v |}.

Definition SERIAL_PORT : string := "/dev/ttyAMA0".
Definition BAUD_RATE : Z := 115200.

(** Everything the node does to the outside, in execution order.  A call
    that returns a value carries that value. *)
Inductive Event : Type :=
| EvLog (lvl : LogLevel) (msg : string)
| EvRclpyInit
| EvConnect (port : string) (baud : Z) (r : exn + unit)
| EvGetAngles (id : Z) (r : exn + pyval)
| EvGetAngle (id joint : Z) (r : exn + pyval)
| EvSendAngle (id joint : Z) (a : float) (s : Z)
| EvPublish (topic : string) (msg : MyBuddy280Angles)
| EvCreatePublisher (topic : string)
| EvCreateTimer (period : float)
| EvCreateService (srv : string)
| EvRemoveNode
| EvShutdown
| EvAddNode
| EvSpin.

(** The collaborators.  [send_angle] returns nothing; the reads and the
    connection can raise. *)
Record Env (W : Type) : Type := {
  env_connect : string → Z → W → (exn + unit) * W;
  env_get_angles : Z → W → (exn + pyval) * W;
  env_get_angle : Z → Z → W → (exn + pyval) * W;
  env_send_angle : Z → Z → float → Z → W → W;
  env_now : W → Z * W;
}.
Arguments env_connect {W}.
Arguments env_get_angles {W}.
Arguments env_get_angle {W}.
Arguments env_send_angle {W}.
Arguments env_now {W}.

(** ** The effect monad: world passing, exceptions, and the trace *)

Definition M (W A : Type) : Type := W → (exn + A) * list Event * W.

Definition ret {W A} (a : A) : M W A := λ w, (inr a, [], w).

Definition raise {W A} (e : exn) : M W A := λ w, (inl e, [], w).

Definition bind {W A B} (m : M W A) (k : A → M W B) : M W B :=
  λ w, match m w with
       | (inl e, t, w') => (inl e, t, w')
       | (inr a, t, w') =>
           match k a w' with
           | (r, t', w'') => (r, t ++ t', w'')
           end
       end.

Definition emit {W} (e : Event) : M W unit := λ w, (inr tt, [e], w).

(** A computation that touches nothing: it returns or it raises. *)
Definition lift {W A} (r : exn + A) : M W A := λ w, (r, [], w).

Notation "'do' x <- m ; k" := (bind m (λ x, k))
  (at level 10, x name, m at level 100, k at level 200).
Notation "'run' m ; k" := (bind m (λ _, k))
  (at level 10, m at level 100, k at level 200).

(** [try: m except E: h] for the exceptions [handles] accepts.  What [h]
    raises is not caught. *)
Definition try_except {W A} (m : M W A) (handles : exn → bool) (h : M W A)
    : M W A :=
  λ w, match m w with
       | (inl e, t, w') =>
           if handles e then
             match h w' with
             | (r, t', w'') => (r, t ++ t', w'')
             end
           else (inl e, t, w')
       | (inr a, t, w') => (inr a, t, w')
       end.

Definition is_SerialException (e : exn) : bool :=
  match e with SerialException => true | _ => false end.

(** Python's [l[i]] for an index that is never negative. *)
Definition index {W A} (l : list A) (i : nat) : M W A :=
  match l !! i with
  | Some x => ret x
  | None => raise IndexError
  end.

Definition set_result (response : Response) (s : string) : Response :=
  {| result := s |}.

(** ** The checks of the dispatcher *)

Definition joint_ok (joint_number : Z) : bool :=
  bool_decide (joint_number ∈ [1; 2; 3; 4; 5; 6]).

Definition angle_ok (a : float) : bool :=
  ((-175.0) <=? a)%float && (a <=? 175.0)%float.

Definition speed_ok (s : Z) : bool := (1 <=? s) && (s <=? 100).

Section Wrapper.
Context {W : Type} (env : Env W).

Definition log (lvl : LogLevel) (msg : string) : M W unit :=
  emit (EvLog lvl msg).

Definition send_angle (id joint : Z) (a : float) (s : Z) : M W unit :=
  λ w, (inr tt, [EvSendAngle id joint a s], env_send_angle env id joint a s w).

(** The [for] loop of [send_joint_angles_callback]: [rest] is what is
    left of [request.joint_number], [i] is the cursor. *)
Fixpoint send_loop (request : Request) (response : Response) (part : Z)
    (rest : list Z) (i : nat) : M W Response :=
  match rest with
  | [] => ret (set_result response "Success: Angles sent")
  | joint_number :: rest' =>
      if joint_ok joint_number then
        do a <- index (angle request) i;
        if angle_ok a then
          do s <- index (speed request) i;
          if speed_ok s then
            do a' <- index (angle request) i;
            do s' <- index (speed request) i;
            run send_angle part joint_number a' s';
            send_loop request response part rest' (S i)
          else
            ret (set_result response "Error: Speed is out of range (1 .. 100)")
        else
          ret (set_result response "Error: Angle is out of range (-175 .. 175)")
      else
        ret (set_result response "Error: Wrong joint number (only 1 .. 6)")
  end.

Definition send_joint_angles_callback (request : Request)
    (response : Response) : M W Response :=
  run log Info ("Request for sending command to " +:+ part_id request
                +:+ " robot part");
  if decide (part_id request = "L") then
    send_loop request response 1 (joint_number request) 0
  else if decide (part_id request = "R") then
    send_loop request response 2 (joint_number request) 0
  else if decide (part_id request = "W") then
    send_loop request response 3 (joint_number request) 0
  else
    ret (set_result response
           "Error: Wrong ID of robot part, use only L, R or W").

(** *** Telemetry *)

Definition get_angles (id : Z) : M W pyval :=
  λ w, let (r, w') := env_get_angles env id w in
       (r, [EvGetAngles id r], w').

Definition get_angle (id joint : Z) : M W pyval :=
  λ w, let (r, w') := env_get_angle env id joint w in
       (r, [EvGetAngle id joint r], w').

Definition now : M W Z :=
  λ w, let (t, w') := env_now env w in (inr t, [], w').

Definition publish (topic : string) (msg : MyBuddy280Angles) : M W unit :=
  emit (EvPublish topic msg).

Definition joint_state_callback : M W unit :=
  let state_msg := MyBuddy280Angles_new in
  (* Left arm state *)
  let state_msg :=
    on_left_arm (set_name ["LJ1"; "LJ2"; "LJ3"; "LJ4"; "LJ5"; "LJ6"])
      state_msg in
  let state_msg := on_left_arm (set_velocity []) state_msg in
  let state_msg := on_left_arm (set_effort []) state_msg in
  do angles <- get_angles 1;
  do positions <- lift (py_float_list angles);
  let state_msg := on_left_arm (set_position positions) state_msg in
  do t <- now;
  let state_msg := on_left_arm (set_stamp t) state_msg in
  (* Right arm state *)
  let state_msg :=
    on_right_arm (set_name ["RJ1"; "RJ2"; "RJ3"; "RJ4"; "RJ5"; "RJ6"])
      state_msg in
  let state_msg := on_right_arm (set_velocity []) state_msg in
  let state_msg := on_right_arm (set_effort []) state_msg in
  do angles <- get_angles 2;
  do positions <- lift (py_float_list angles);
  let state_msg := on_right_arm (set_position positions) state_msg in
  do t <- now;
  let state_msg := on_right_arm (set_stamp t) state_msg in
  (* Waist state *)
  let state_msg := on_waist (set_name ["W"]) state_msg in
  let state_msg := on_waist (set_velocity []) state_msg in
  let state_msg := on_waist (set_effort []) state_msg in
  do a <- get_angle 3 1;
  do angles <- lift (py_float a);
  let state_msg :=
    on_waist (λ js, set_position (position js ++ [angles]) js) state_msg in
  do t <- now;
  let state_msg := on_waist (set_stamp t) state_msg in
  publish "myBuddy280/joints/angles" state_msg.

(** *** Start-up *)

Definition MyBuddy_connect (port : string) (baud : Z) : M W MyBuddy :=
  λ w, let (r, w') := env_connect env port baud w in
       (match r with
        | inl e => inl e
        | inr _ => inr {| mb_port := port; mb_baud := baud |}
        end, [EvConnect port baud r], w').

(** [self.executor.remove_node(self)]: a method call on the attribute,
    which raises [AttributeError] when the attribute is [None]. *)
Definition executor_remove_node (self : Node) : M W unit :=
  match executor self with
  | None => raise AttributeError
  | Some _ => emit EvRemoveNode
  end.

(** The body of [__init__] after [super().__init__]. *)
Definition init_body (self : Node) : M W Node :=
  do self <-
    try_except
      (do link <- MyBuddy_connect SERIAL_PORT BAUD_RATE;
       let self := set_mc link self in
       run log Info "Serial port is successfully found";
       ret self)
      is_SerialException
      (run log Error "Serial port not found";
       run executor_remove_node self;
       run emit EvShutdown;
       ret self);
  run emit (EvCreatePublisher "myBuddy280/joints/angles");
  let self := set_publisher_joint_state "myBuddy280/joints/angles" self in
  run emit (EvCreateTimer 0.5%float);
  let self := set_timer_state 0.5%float self in
  run emit (EvCreateService "myBuddy280/send_joint_angles");
  let self := set_srv_send_joint_angle "myBuddy280/send_joint_angles" self in
  ret self.

Definition MyBuddy280ROSWrapper_init : M W Node :=
  init_body (Node_init "mybuddy280_ros2_wrapper").

(** [main] up to the moment the executor starts to spin.  The node is
    built before [add_node], outside the [try]. *)
Definition main : M W Node :=
  run emit EvRclpyInit;
  let executor := MultiThreadedExecutor in
  do mybuddy280_ros_wrapper <- MyBuddy280ROSWrapper_init;
  run emit EvAddNode;
  let mybuddy280_ros_wrapper :=
    set_executor (Some executor) mybuddy280_ros_wrapper in
  run emit EvSpin;
  ret mybuddy280_ros_wrapper.

End Wrapper.

(** ** Reading a run *)

Definition outcome {W A} (x : (exn + A) * list Event * W) : exn + A := x.1.1.
Definition trace {W A} (x : (exn + A) * list Event * W) : list Event := x.1.2.
Definition world {W A} (x : (exn + A) * list Event * W) : W := x.2.

(** The run [x] with the events [t] in front of its own. *)
Definition prepend {W A} (t : list Event) (x : (exn + A) * list Event * W)
    : (exn + A) * list Event * W :=
  (outcome x, t ++ trace x, world x).

(** The calls made on the Device Link, and among them the [send_angle]s. *)
Definition is_link (e : Event) : bool :=
  match e with
  | EvGetAngles _ _ | EvGetAngle _ _ _ | EvSendAngle _ _ _ _ => true
  | _ => false
  end.

Definition link_calls (t : list Event) : list Event := List.filter is_link t.

Definition is_send (e : Event) : bool :=
  match e with EvSendAngle _ _ _ _ => true | _ => false end.

Definition send_calls (t : list Event) : list Event := List.filter is_send t.

Definition is_publish (e : Event) : bool :=
  match e with EvPublish _ _ => true | _ => false end.

Definition publishes (t : list Event) : list Event := List.filter is_publish t.

(** ** The request seen as a sequence of entries *)

Record Entry : Type := { e_joint : Z; e_angle : float; e_speed : Z }.

Definition entries (request : Request) : list Entry :=
  zip_with (λ ja s, {| e_joint := ja.1; e_angle := ja.2; e_speed := s |})
    (zip (joint_number request) (angle request)) (speed request).

Definition parallel (request : Request) : Prop :=
  length (angle request) = length (joint_number request)
  ∧ length (speed request) = length (joint_number request).

Definition valid_joint (e : Entry) : Prop := 1 ≤ e_joint e ≤ 6.
Definition valid_angle (e : Entry) : Prop :=
  ((-175.0) <=? e_angle e)%float = true ∧ (e_angle e <=? 175.0)%float = true.
Definition valid_speed (e : Entry) : Prop := 1 ≤ e_speed e ≤ 100.

Definition valid_entry (e : Entry) : Prop :=
  valid_joint e ∧ valid_angle e ∧ valid_speed e.

Definition send_event (part : Z) (e : Entry) : Event :=
  EvSendAngle part (e_joint e) (e_angle e) (e_speed e).

(** The part codes and the group ids they resolve to. *)
Definition part_codes : list (string * Z) := [("L", 1); ("R", 2); ("W", 3)].

Definition request_log (request : Request) : Event :=
  EvLog Info ("Request for sending command to " +:+ part_id request
              +:+ " robot part").

(** The messages of the service. *)
Definition msg_wrong_id : string :=
  "Error: Wrong ID of robot part, use only L, R or W".
Definition msg_wrong_joint : string := "Error: Wrong joint number (only 1 .. 6)".
Definition msg_angle : string := "Error: Angle is out of range (-175 .. 175)".
Definition msg_speed : string := "Error: Speed is out of range (1 .. 100)".
Definition msg_success : string := "Success: Angles sent".

Definition service_messages : list string :=
  [msg_wrong_id; msg_wrong_joint; msg_angle; msg_speed; msg_success].

(** The configurations of the dispatch loop at the head of an iteration:
    what is left of [joint_number], the cursor [i], and the [send_angle]
    calls made so far.  An iteration leads to the next one only when its
    entry passes the three checks; otherwise the callback returns. *)
Inductive loop_state (request : Request) (part : Z)
    : list Z → nat → list Event → Prop :=
| loop_start : loop_state request part (joint_number request) 0 []
| loop_next jn rest i sent a s :
    loop_state request part (jn :: rest) i sent →
    joint_ok jn = true →
    angle request !! i = Some a →
    angle_ok a = true →
    speed request !! i = Some s →
    speed_ok s = true →
    loop_state request part rest (S i) (sent ++ [EvSendAngle part jn a s]).

(** The reads of a trace, as calls: the group and, for [get_angle], the
    joint.  [tick_reads] are the reads the telemetry callback is written to
    make, in its order. *)
Definition read_call (e : Event) : option (Z * option Z) :=
  match e with
  | EvGetAngles id _ => Some (id, None)
  | EvGetAngle id joint _ => Some (id, Some joint)
  | _ => None
  end.

Definition reads (t : list Event) : list (Z * option Z) := omap read_call t.

Definition tick_reads : list (Z * option Z) :=
  [(1, None); (2, None); (3, Some 1)].

(** A read of the trace raised [e]. *)
Definition read_raised (e : exn) (t : list Event) : Prop :=
  ∃ id, EvGetAngles id (inl e) ∈ t ∨ ∃ joint, EvGetAngle id joint (inl e) ∈ t.

(** A read of the trace returned a value the callback cannot convert:
    not a list of numbers for [get_angles], not a number for
    [get_angle]. *)
Definition read_unusable (t : list Event) : Prop :=
  ∃ id v,
    (EvGetAngles id (inr v) ∈ t ∧ py_float_list v = inl TypeError)
    ∨ ∃ joint, EvGetAngle id joint (inr v) ∈ t ∧ py_float v = inl TypeError.


(** Every [get_angles] of the trace that returned a list, returned six
    values. *)
Definition six_angles (t : list Event) : Prop :=
  ∀ id l, EvGetAngles id (inr (PyList l)) ∈ t → length l = 6%nat.

Definition is_registration (e : Event) : bool :=
  match e with
  | EvCreatePublisher _ | EvCreateTimer _ | EvCreateService _ => true
  | _ => false
  end.

Definition registrations (t : list Event) : list Event :=
  List.filter is_registration t.

Definition telemetry_topic : string := "myBuddy280/joints/angles".

(** What the [send_angle] calls for [es] do to the world. *)
Definition apply_sends {W} (env : Env W) (part : Z) (es : list Entry) (w : W)
    : W :=
  foldl (λ w e, env_send_angle env part (e_joint e) (e_angle e) (e_speed e) w)
    w es.

(** Requests that bring out each message. *)
Definition request_of_message (m : string) : Request :=
  if decide (m = msg_wrong_id) then
    {| part_id := "X"; joint_number := []; angle := []; speed := [] |}
  else if decide (m = msg_wrong_joint) then
    {| part_id := "L"; joint_number := [7]; angle := [0.0%float];
       speed := [1] |}
  else if decide (m = msg_angle) then
    {| part_id := "R"; joint_number := [1]; angle := [200.0%float];
       speed := [1] |}
  else if decide (m = msg_speed) then
    {| part_id := "W"; joint_number := [1]; angle := [0.0%float];
       speed := [0] |}
  else
    {| part_id := "L"; joint_number := [1]; angle := [0.0%float];
       speed := [1] |}.

(** The message a tick builds from its three reads and clock readings. *)
Definition tick_message (l1 l2 : list float) (x : float) (t1 t2 t3 : Z)
    : MyBuddy280Angles :=
  {| left_arm :=
       {| name := ["LJ1"; "LJ2"; "LJ3"; "LJ4"; "LJ5"; "LJ6"];
          position := l1; velocity := []; effort := []; stamp := t1 |};
     right_arm :=
       {| name := ["RJ1"; "RJ2"; "RJ3"; "RJ4"; "RJ5"; "RJ6"];
          position := l2; velocity := []; effort := []; stamp := t2 |};
     waist :=
       {| name := ["W"]; position := [x]; velocity := []; effort := [];
          stamp := t3 |} |}.

(** ** Concrete collaborators and runs *)

Definition six_zeros : list float :=
  [0.0; 0.0; 0.0; 0.0; 0.0; 0.0]%float.

(** A robot that is there and answers. *)
Definition demo_env : Env unit := {|
  env_connect := λ _ _ w, (inr tt, w);
  env_get_angles := λ _ w, (inr (PyFloats six_zeros), w);
  env_get_angle := λ _ _ w, (inr (PyNum 0.0), w);
  env_send_angle := λ _ _ _ _ w, w;
  env_now := λ w, (0, w);
|}.

(** No serial port. *)
Definition no_port_env : Env unit := {|
  env_connect := λ _ _ w, (inl SerialException, w);
  env_get_angles := λ _ w, (inl (OtherError "no link"), w);
  env_get_angle := λ _ _ w, (inl (OtherError "no link"), w);
  env_send_angle := λ _ _ _ _ w, w;
  env_now := λ w, (0, w);
|}.

(** A link whose answer for the left arm is two values short of six. *)
Definition short_env : Env unit := {|
  env_connect := λ _ _ w, (inr tt, w);
  env_get_angles := λ id w,
    (inr (PyFloats (if decide (id = 1) then [1.5; 2.5; 3.5; 4.5]%float
                    else six_zeros)), w);
  env_get_angle := λ _ _ w, (inr (PyNum 0.0), w);
  env_send_angle := λ _ _ _ _ w, w;
  env_now := λ w, (0, w);
|}.



Definition blank : Response := {| result := "" |}.

(** The two scenarios of the specification, and variations. *)
Definition scenario_L : Request :=
  {| part_id := "L"; joint_number := [1; 2];
     angle := [10.0; 200.0]%float; speed := [50; 50] |}.

Definition scenario_W : Request :=
  {| part_id := "W"; joint_number := [1];
     angle := [5.0]%float; speed := [10] |}.

Definition scenario_W4 : Request :=
  {| part_id := "W"; joint_number := [4];
     angle := [(-175.0)]%float; speed := [100] |}.

Definition scenario_X : Request :=
  {| part_id := "X"; joint_number := [1];
     angle := [5.0]%float; speed := [10] |}.

Definition scenario_empty : Request :=
  {| part_id := "R"; joint_number := []; angle := [1.0]%float; speed := [] |}.

(** ** How the dispatch loop ends *)

(** Where and why the loop over [rest], started with the cursor at [i],
    ends after [n] entries were sent: the sequence is used up, the next
    entry fails a check, or the cursor is past the end of [angle] or of
    [speed] when the loop indexes it. *)
Inductive loop_stop (request : Request) (response : Response)
    (rest : list Z) (i n : nat) : exn + Response → Prop :=
| stop_done :
    length rest = n →
    loop_stop request response rest i n
      (inr (set_result response msg_success))
| stop_joint jn :
    rest !! n = Some jn →
    ¬ 1 ≤ jn ≤ 6 →
    loop_stop request response rest i n
      (inr (set_result response msg_wrong_joint))
| stop_angle jn a :
    rest !! n = Some jn →
    1 ≤ jn ≤ 6 →
    angle request !! (i + n)%nat = Some a →
    angle_ok a = false →
    loop_stop request response rest i n
      (inr (set_result response msg_angle))
| stop_speed jn a s :
    rest !! n = Some jn →
    1 ≤ jn ≤ 6 →
    angle request !! (i + n)%nat = Some a →
    angle_ok a = true →
    speed request !! (i + n)%nat = Some s →
    speed_ok s = false →
    loop_stop request response rest i n
      (inr (set_result response msg_speed))
| stop_no_angle jn :
    rest !! n = Some jn →
    1 ≤ jn ≤ 6 →
    angle request !! (i + n)%nat = None →
    loop_stop request response rest i n (inl IndexError)
| stop_no_speed jn a :
    rest !! n = Some jn →
    1 ≤ jn ≤ 6 →
    angle request !! (i + n)%nat = Some a →
    angle_ok a = true →
    speed request !! (i + n)%nat = None →
    loop_stop request response rest i n (inl IndexError).

(** The same request addressed to another part. *)
Definition with_part (c : string) (request : Request) : Request :=
  {| part_id := c; joint_number := joint_number request;
     angle := angle request; speed := speed request |}.

(** A request whose angle sequence is one short. *)
Definition scenario_ragged : Request :=
  {| part_id := "R"; joint_number := [3; 4];
     angle := [90.0]%float; speed := [20; 20] |}.

(** ** The rest of [main]: the context manager and the spinning executor *)

(** [KeyboardInterrupt], among the exceptions that are known by name. *)
Definition KeyboardInterrupt : exn := OtherError "KeyboardInterrupt".

Definition is_KeyboardInterrupt (e : exn) : bool :=
  match e with
  | OtherError what => bool_decide (what = "KeyboardInterrupt")
  | _ => false
  end.

(** [__enter__] returns the object itself. *)
Definition MyBuddy280ROSWrapper_enter {W} (self : Node) : M W Node :=
  ret self.

(** [__exit__] has an empty body: it returns [None], which [with] reads as
    "do not suppress the exception". *)
Definition MyBuddy280ROSWrapper_exit {W} (self : Node) (exc : option exn)
    : M W bool :=
  ret false.

(** Python's [with mgr as v: body]: [__exit__] is called on the way out,
    with the exception if there is one, and the exception goes on unless
    [__exit__] returns a true value. *)
Definition with_as {W} (mgr : Node) (body : Node → M W unit) : M W unit :=
  do v <- MyBuddy280ROSWrapper_enter mgr;
  λ w, match body v w with
       | (inl e, t, w') =>
           prepend t
             ((do suppress <- MyBuddy280ROSWrapper_exit mgr (Some e);
               if suppress : bool then ret tt else raise e) w')
       | (inr tt, t, w') =>
           prepend t
             ((run MyBuddy280ROSWrapper_exit mgr None; ret tt) w')
       end.

(** The whole of [main].  What [executor.spin()] does while it blocks, and
    how it ends, belongs to the middleware: it is the parameter [spin]. *)
Definition main_with_spin {W} (env : Env W) (spin : Node → M W unit)
    : M W unit :=
  run emit EvRclpyInit;
  let executor := MultiThreadedExecutor in
  do mgr <- MyBuddy280ROSWrapper_init env;
  with_as mgr (λ mybuddy280_ros_wrapper,
    try_except
      (run emit EvAddNode;
       let mybuddy280_ros_wrapper :=
         set_executor (Some executor) mybuddy280_ros_wrapper in
       run emit EvSpin;
       spin mybuddy280_ros_wrapper)
      is_KeyboardInterrupt
      (run log Warn "Killing the myBuddy wrapper node...";
       emit EvRemoveNode)).

Definition is_connect (e : Event) : bool :=
  match e with EvConnect _ _ _ => true | _ => false end.

Definition connects (t : list Event) : list Event := List.filter is_connect t.

(** The node as [__init__] leaves it when it returns. *)
Definition constructed_node : Node :=
  {| node_name := "mybuddy280_ros2_wrapper";
     executor := None;
     mc := Some {| mb_port := "/dev/ttyAMA0"; mb_baud := 115200 |};
     publisher_joint_state := Some "myBuddy280/joints/angles";
     timer_state := Some 0.5%float;
     srv_send_joint_angle := Some "myBuddy280/send_joint_angles" |}.

(** An executor that is interrupted from the keyboard at once, and one in
    which a callback raises. *)
Definition spin_interrupted {W} (node : Node) : M W unit :=
  raise KeyboardInterrupt.

Definition spin_crashing {W} (node : Node) : M W unit :=
  raise (OtherError "read timeout").


(** A vendor constructor that fails with something else than a serial
    error. *)
Definition bad_baud_env : Env unit := {|
  env_connect := λ _ _ w, (inl (OtherError "ValueError"), w);
  env_get_angles := λ _ w, (inl (OtherError "no link"), w);
  env_get_angle := λ _ _ w, (inl (OtherError "no link"), w);
  env_send_angle := λ _ _ _ _ w, w;
  env_now := λ w, (0, w);
|}.

(** ** Proof steps used more than once *)

(** Membership in a trace that is written out. *)
Ltac in_trace H :=
  repeat (apply elem_of_cons in H as [H|H]; [simplify_eq|]);
  try (by apply elem_of_nil in H).

(** A part code is one of the three. *)
Ltac part_code := unfold part_codes; rewrite !elem_of_cons; auto.

(** A written-out entry is valid. *)
Ltac entry_valid :=
  unfold valid_entry, valid_joint, valid_angle, valid_speed; simpl;
  split_and!; (lia || reflexivity).

(** ** Lemmas on the monad *)

Lemma prepend_nil {W A} (x : (exn + A) * list Event * W) : prepend [] x = x.
Proof. by destruct x as [[r t] w]. Qed.

Lemma prepend_prepend {W A} t1 t2 (x : (exn + A) * list Event * W) :
  prepend t1 (prepend t2 x) = prepend (t1 ++ t2) x.
Proof. unfold prepend, outcome, trace, world. simpl. by rewrite app_assoc. Qed.

Lemma bind_inr {W A B} (m : M W A) (k : A → M W B) w a t w' :
  m w = (inr a, t, w') → bind m k w = prepend t (k a w').
Proof.
  intros Hm. unfold bind. rewrite Hm.
  by destruct (k a w') as [[r t'] w''].
Qed.

Lemma bind_inl {W A B} (m : M W A) (k : A → M W B) w e t w' :
  m w = (inl e, t, w') → bind m k w = (inl e, t, w').
Proof. intros Hm. unfold bind. by rewrite Hm. Qed.

Lemma index_Some {W A} (l : list A) i x (w : W) :
  l !! i = Some x → index l i w = (inr x, [], w).
Proof. intros H. unfold index. by rewrite H. Qed.

Lemma index_None {W A} (l : list A) i (w : W) :
  l !! i = None → index (W:=W) l i w = (inl IndexError, [], w).
Proof. intros H. unfold index. by rewrite H. Qed.

(** ** Lemmas on the checks and on [entries] *)

Lemma joint_ok_spec jn : joint_ok jn = true ↔ 1 ≤ jn ≤ 6.
Proof.
  unfold joint_ok. rewrite bool_decide_eq_true.
  rewrite !elem_of_cons, elem_of_nil. lia.
Qed.

Lemma speed_ok_spec s : speed_ok s = true ↔ 1 ≤ s ≤ 100.
Proof. unfold speed_ok. rewrite andb_true_iff, !Z.leb_le. lia. Qed.

Lemma angle_ok_spec a :
  angle_ok a = true
  ↔ ((-175.0) <=? a)%float = true ∧ (a <=? 175.0)%float = true.
Proof. unfold angle_ok. by rewrite andb_true_iff. Qed.

Lemma entries_lookup request k e :
  entries request !! k = Some e →
  joint_number request !! k = Some (e_joint e)
  ∧ angle request !! k = Some (e_angle e)
  ∧ speed request !! k = Some (e_speed e).
Proof.
  unfold entries. intros H.
  apply lookup_zip_with_Some in H as ([jn a] & s & -> & Hz & Hs).
  by apply lookup_zip_Some in Hz as [Hj Ha].
Qed.

Lemma entries_length request :
  parallel request → length (entries request) = length (joint_number request).
Proof.
  intros [Ha Hs]. unfold entries.
  rewrite !length_zip_with. lia.
Qed.

Lemma entries_joints request :
  parallel request → e_joint <$> entries request = joint_number request.
Proof.
  intros Hp. apply list_eq. intros k. rewrite list_lookup_fmap.
  destruct (entries request !! k) as [e|] eqn:He; simpl.
  - apply entries_lookup in He as (-> & _ & _). done.
  - apply lookup_ge_None in He. rewrite entries_length in He by done.
    symmetry. by apply lookup_ge_None.
Qed.

(** ** The dispatch loop, one iteration at a time *)

Section Dispatch.
Context {W : Type} (env : Env W).
Implicit Types (request : Request) (response : Response) (part : Z).
Implicit Types (e : Entry) (es : list Entry) (w : W) (i k : nat).

Lemma send_loop_pass request response part rest i w e :
  angle request !! i = Some (e_angle e) →
  speed request !! i = Some (e_speed e) →
  valid_entry e →
  send_loop env request response part (e_joint e :: rest) i w
  = prepend [send_event part e]
      (send_loop env request response part rest (S i)
         (apply_sends env part [e] w)).
Proof.
  intros Ha Hs (Hj & Hang & Hsp). simpl.
  apply joint_ok_spec in Hj. apply angle_ok_spec in Hang.
  apply speed_ok_spec in Hsp. rewrite Hj.
  rewrite (bind_inr _ _ _ _ _ _ (index_Some _ _ _ w Ha)), prepend_nil.
  rewrite Hang.
  rewrite (bind_inr _ _ _ _ _ _ (index_Some _ _ _ w Hs)), prepend_nil.
  rewrite Hsp.
  rewrite (bind_inr _ _ _ _ _ _ (index_Some _ _ _ w Ha)), prepend_nil.
  rewrite (bind_inr _ _ _ _ _ _ (index_Some _ _ _ w Hs)), prepend_nil.
  by rewrite (bind_inr _ _ w tt [send_event part e] (apply_sends env part [e] w)).
Qed.

Lemma send_loop_bad_joint request response part rest i w jn :
  ¬ 1 ≤ jn ≤ 6 →
  send_loop env request response part (jn :: rest) i w
  = (inr (set_result response msg_wrong_joint), [], w).
Proof.
  intros Hj. simpl. destruct (joint_ok jn) eqn:E; [|done].
  by apply joint_ok_spec in E.
Qed.

Lemma send_loop_bad_angle request response part rest i w e :
  angle request !! i = Some (e_angle e) →
  valid_joint e → ¬ valid_angle e →
  send_loop env request response part (e_joint e :: rest) i w
  = (inr (set_result response msg_angle), [], w).
Proof.
  intros Ha Hj Hang. simpl. apply joint_ok_spec in Hj. rewrite Hj.
  rewrite (bind_inr _ _ _ _ _ _ (index_Some _ _ _ w Ha)), prepend_nil.
  destruct (angle_ok (e_angle e)) eqn:E; [|done].
  by apply angle_ok_spec in E.
Qed.

Lemma send_loop_bad_speed request response part rest i w e :
  angle request !! i = Some (e_angle e) →
  speed request !! i = Some (e_speed e) →
  valid_joint e → valid_angle e → ¬ valid_speed e →
  send_loop env request response part (e_joint e :: rest) i w
  = (inr (set_result response msg_speed), [], w).
Proof.
  intros Ha Hs Hj Hang Hsp. simpl.
  apply joint_ok_spec in Hj. apply angle_ok_spec in Hang. rewrite Hj.
  rewrite (bind_inr _ _ _ _ _ _ (index_Some _ _ _ w Ha)), prepend_nil.
  rewrite Hang.
  rewrite (bind_inr _ _ _ _ _ _ (index_Some _ _ _ w Hs)), prepend_nil.
  destruct (speed_ok (e_speed e)) eqn:E; [|done].
  by apply speed_ok_spec in E.
Qed.

(** A run of valid entries: each is sent, the cursor moves with them. *)
Lemma send_loop_prefix request response part es :
  ∀ rest i w,
    (∀ k e, es !! k = Some e →
       valid_entry e
       ∧ angle request !! (i + k)%nat = Some (e_angle e)
       ∧ speed request !! (i + k)%nat = Some (e_speed e)) →
    send_loop env request response part ((e_joint <$> es) ++ rest) i w
    = prepend (send_event part <$> es)
        (send_loop env request response part rest (i + length es)%nat
           (apply_sends env part es w)).
Proof.
  induction es as [|e es IH]; intros rest i w Hes; simpl.
  - rewrite Nat.add_0_r. symmetry. apply prepend_nil.
  - destruct (Hes 0%nat e eq_refl) as (Hv & Ha & Hs).
    rewrite Nat.add_0_r in Ha, Hs.
    change (send_loop env request response part
              (e_joint e :: (e_joint <$> es) ++ rest) i w
            = prepend (send_event part e :: (send_event part <$> es))
                (send_loop env request response part rest
                   (i + S (length es))%nat
                   (apply_sends env part es (apply_sends env part [e] w)))).
    rewrite (send_loop_pass _ _ _ _ _ _ e Ha Hs Hv).
    rewrite IH.
    + rewrite prepend_prepend. do 2 f_equal. lia.
    + intros k e' Hk. specialize (Hes (S k) e' Hk).
      by replace (S i + k)%nat with (i + S k)%nat by lia.
Qed.

Lemma callback_resolved request response part w :
  (part_id request, part) ∈ part_codes →
  send_joint_angles_callback env request response w
  = prepend [request_log request]
      (send_loop env request response part (joint_number request) 0 w).
Proof.
  unfold part_codes. rewrite !elem_of_cons, elem_of_nil.
  intros [H|[H|[H|[]]]]; injection H as Hc ->;
    unfold send_joint_angles_callback;
    rewrite (bind_inr _ _ w tt [request_log request] w) by done;
    rewrite Hc; reflexivity.
Qed.

Lemma callback_unresolved request response w :
  part_id request ∉ ["L"; "R"; "W"] →
  send_joint_angles_callback env request response w
  = (inr (set_result response msg_wrong_id), [request_log request], w).
Proof.
  rewrite !not_elem_of_cons. intros (HL & HR & HW & _).
  unfold send_joint_angles_callback.
  rewrite (bind_inr _ _ w tt [request_log request] w) by done.
  rewrite !decide_False by done. reflexivity.
Qed.

Lemma send_calls_sends part es :
  send_calls (send_event part <$> es) = send_event part <$> es.
Proof.
  unfold send_calls. induction es as [|e es IH]; simpl; [done|by f_equal].
Qed.

Lemma link_calls_sends part es :
  link_calls (send_event part <$> es) = send_event part <$> es.
Proof.
  unfold link_calls. induction es as [|e es IH]; simpl; [done|by f_equal].
Qed.

(** The first [n] entries are valid: the callback has sent them, in order,
    when it reaches entry [n] with the cursor at [n]. *)
Lemma callback_prefix request response part w n :
  (part_id request, part) ∈ part_codes →
  parallel request →
  (∀ j e, (j < n)%nat → entries request !! j = Some e → valid_entry e) →
  send_joint_angles_callback env request response w
  = prepend (request_log request :: (send_event part <$> take n (entries request)))
      (send_loop env request response part (drop n (joint_number request))
         (length (take n (entries request)))
         (apply_sends env part (take n (entries request)) w)).
Proof.
  intros Hpart Hpar Hvalid.
  rewrite (callback_resolved _ _ part) by done.
  rewrite <- (take_drop n (joint_number request)) at 1.
  rewrite <- (entries_joints request) at 1 by done.
  rewrite <- fmap_take.
  rewrite send_loop_prefix.
  - by rewrite prepend_prepend.
  - intros j e [He Hj]%lookup_take_Some. split; [by eapply Hvalid|].
    by apply entries_lookup in He as (_ & Ha & Hs).
Qed.

Lemma trace_prepend {A} t (x : (exn + A) * list Event * W) :
  trace (prepend t x) = t ++ trace x.
Proof. done. Qed.

Lemma outcome_prepend {A} t (x : (exn + A) * list Event * W) :
  outcome (prepend t x) = outcome x.
Proof. done. Qed.

Lemma send_calls_app t1 t2 :
  send_calls (t1 ++ t2) = send_calls t1 ++ send_calls t2.
Proof. apply List.filter_app. Qed.

Lemma callback_all_valid request response part w :
  (part_id request, part) ∈ part_codes →
  parallel request →
  Forall valid_entry (entries request) →
  send_joint_angles_callback env request response w
  = prepend (request_log request :: (send_event part <$> entries request))
      (inr (set_result response msg_success), [],
       apply_sends env part (entries request) w).
Proof.
  intros Hpart Hpar Hall.
  rewrite (callback_prefix _ response part w (length (entries request)))
    by (try done; intros j e _ He; by eapply Forall_lookup_1).
  rewrite firstn_all, entries_length by done.
  by rewrite skipn_all.
Qed.

(** C2: a request for part L, R or W whose parallel entries are all valid
    (joint number in 1..6, angle between -175.0 and 175.0 with both ends
    allowed, speed in 1..100) makes exactly one [send_angle] call per entry,
    in request order, with the resolved group id (L is 1, R is 2, W is 3) and
    the entry's joint number, angle and speed, and answers
    "Success: Angles sent". *)
Theorem valid_batch_sends_every_entry request response part w :
  (part_id request, part) ∈ part_codes →
  parallel request →
  Forall valid_entry (entries request) →
  let r := send_joint_angles_callback env request response w in
  outcome r = inr {| result := "Success: Angles sent" |}
  ∧ trace r = request_log request :: (send_event part <$> entries request)
  ∧ send_calls (trace r) = send_event part <$> entries request
  ∧ length (send_calls (trace r)) = length (joint_number request).
Proof.
  intros Hpart Hpar Hall r.
  assert (Hr : r = prepend (request_log request
                              :: (send_event part <$> entries request))
                     (inr (set_result response msg_success), [],
                      apply_sends env part (entries request) w)).
  { subst r. by apply callback_all_valid. }
  rewrite Hr, trace_prepend, outcome_prepend. simpl.
  rewrite app_nil_r, send_calls_sends.
  repeat split; try done.
  by rewrite length_fmap, entries_length.
Qed.

(** C1: in a request for part L, R or W with parallel entries, let the entry
    at index [k] (counting from 0, so the (k+1)-th entry) be the first
    invalid one.  Then exactly [k] [send_angle] calls are made, one for each
    entry before it and in request order, nothing is sent for it or after
    it, and the message is the one of its first failing check: joint
    number, then angle, then speed. *)
Theorem first_invalid_entry_stops_the_batch request response part w k e :
  (part_id request, part) ∈ part_codes →
  parallel request →
  (∀ j e', (j < k)%nat → entries request !! j = Some e' → valid_entry e') →
  entries request !! k = Some e →
  ¬ valid_entry e →
  let r := send_joint_angles_callback env request response w in
  trace r = request_log request :: (send_event part <$> take k (entries request))
  ∧ send_calls (trace r) = send_event part <$> take k (entries request)
  ∧ length (send_calls (trace r)) = k
  ∧ ∃ msg, outcome r = inr {| result := msg |}
      ∧ (¬ valid_joint e → msg = "Error: Wrong joint number (only 1 .. 6)")
      ∧ (valid_joint e → ¬ valid_angle e →
         msg = "Error: Angle is out of range (-175 .. 175)")
      ∧ (valid_joint e → valid_angle e →
         msg = "Error: Speed is out of range (1 .. 100)").
Proof.
  intros Hpart Hpar Hbefore He Hbad r.
  pose proof (lookup_lt_Some _ _ _ He) as Hk.
  destruct (entries_lookup _ _ _ He) as (Hj & Ha & Hs).
  assert (Hlen : length (take k (entries request)) = k)
    by (rewrite length_take; lia).
  assert (∃ msg,
    r = prepend (request_log request
                 :: (send_event part <$> take k (entries request)))
          (inr (set_result response msg), [],
           apply_sends env part (take k (entries request)) w)
    ∧ (¬ valid_joint e → msg = msg_wrong_joint)
    ∧ (valid_joint e → ¬ valid_angle e → msg = msg_angle)
    ∧ (valid_joint e → valid_angle e → msg = msg_speed)) as (msg & Hr & Hmsg).
  { subst r. rewrite (callback_prefix _ response part w k) by done.
    rewrite Hlen, (drop_S _ _ _ Hj).
    destruct (decide (valid_joint e)) as [Hvj|Hvj].
    - destruct (decide (valid_angle e)) as [Hva|Hva].
      + exists msg_speed.
        rewrite (send_loop_bad_speed _ _ _ _ _ _ e) by
          (try done; intros Hvs; by apply Hbad).
        repeat split; done.
      + exists msg_angle. rewrite (send_loop_bad_angle _ _ _ _ _ _ e) by done.
        repeat split; done.
    - exists msg_wrong_joint. rewrite send_loop_bad_joint by done.
      repeat split; done. }
  rewrite Hr, trace_prepend, outcome_prepend. simpl.
  rewrite app_nil_r, send_calls_sends, length_fmap, Hlen.
  repeat split; try done. by exists msg.
Qed.

(** C3: a request whose part code is none of 'L', 'R', 'W' is answered with
    "Error: Wrong ID of robot part, use only L, R or W" and makes no call on
    the Device Link, whatever its entry sequences are. *)
Theorem wrong_part_id_makes_no_call request response w :
  part_id request ∉ ["L"; "R"; "W"] →
  let r := send_joint_angles_callback env request response w in
  outcome r
  = inr {| result := "Error: Wrong ID of robot part, use only L, R or W" |}
  ∧ trace r = [request_log request]
  ∧ link_calls (trace r) = []
  ∧ send_calls (trace r) = []
  ∧ world r = w.
Proof.
  intros Hpart r. subst r. by rewrite callback_unresolved.
Qed.

(** C10: a request for part L, R or W with an empty [joint_number] sequence
    is answered with "Success: Angles sent" and makes no [send_angle] call,
    whatever the angle and speed sequences hold. *)
Theorem empty_batch_succeeds request response part w :
  (part_id request, part) ∈ part_codes →
  joint_number request = [] →
  let r := send_joint_angles_callback env request response w in
  outcome r = inr {| result := "Success: Angles sent" |}
  ∧ send_calls (trace r) = []
  ∧ link_calls (trace r) = [].
Proof.
  intros Hpart Hnil r. subst r.
  rewrite (callback_resolved _ _ part) by done. by rewrite Hnil.
Qed.

(** C9: the dispatcher uses the joint range 1..6 for every group, the waist
    too.  In a request for part 'W' whose entries up to index [k] are valid,
    an entry [k] with joint number in 2..6 is sent as
    [send_angle(3, joint_number, angle, speed)], and the request is answered
    with success when all its entries are valid. *)
Theorem waist_accepts_joints_2_to_6 request response w k e :
  part_id request = "W" →
  parallel request →
  (∀ j e', (j ≤ k)%nat → entries request !! j = Some e' → valid_entry e') →
  entries request !! k = Some e →
  2 ≤ e_joint e ≤ 6 →
  let r := send_joint_angles_callback env request response w in
  send_calls (trace r) !! k
  = Some (EvSendAngle 3 (e_joint e) (e_angle e) (e_speed e))
  ∧ (Forall valid_entry (entries request) →
     outcome r = inr {| result := "Success: Angles sent" |}).
Proof.
  intros HW Hpar Hupto He Hjoint r.
  assert (Hpart : (part_id request, 3) ∈ part_codes).
  { rewrite HW. unfold part_codes. rewrite !elem_of_cons. auto. }
  pose proof (lookup_lt_Some _ _ _ He) as Hk.
  split.
  - subst r. rewrite (callback_prefix _ response 3 w (S k)); [|done..|].
    + rewrite trace_prepend. simpl.
      rewrite send_calls_app, send_calls_sends.
      rewrite lookup_app_l by (rewrite length_fmap, length_take; lia).
      rewrite list_lookup_fmap, lookup_take_lt by lia. by rewrite He.
    + intros j e' Hj. apply Hupto. lia.
  - intros Hall. subst r. by rewrite (callback_all_valid _ response 3 w).
Qed.

(** The relation describes the loop of the code: from a configuration
    it reaches, the run goes on as [send_loop] does from there. *)
Lemma loop_state_sound request response part w rest i sent :
  loop_state request part rest i sent →
  ∃ w', send_loop env request response part (joint_number request) 0 w
        = prepend sent (send_loop env request response part rest i w').
Proof.
  induction 1 as [|jn rest i sent a s _ [w' IH] Hj Ha Hang Hs Hsp].
  - exists w. by rewrite prepend_nil.
  - exists (apply_sends env part [{| e_joint := jn; e_angle := a; e_speed := s |}] w').
    rewrite IH.
    rewrite (send_loop_pass _ _ _ _ _ _
               {| e_joint := jn; e_angle := a; e_speed := s |}); [|done..|].
    + by rewrite prepend_prepend.
    + split_and!; simpl; [by apply joint_ok_spec|by apply angle_ok_spec
                          |by apply speed_ok_spec].
Qed.

Lemma loop_state_cursor request part rest i sent :
  loop_state request part rest i sent →
  i = length sent
  ∧ ∃ done_, joint_number request = done_ ++ rest ∧ length done_ = i.
Proof.
  induction 1 as [|jn rest i sent a s _ (Hi & pre & Hpre & Hlen) _ _ _ _ _].
  - split; [done|]. by exists [].
  - split; [rewrite length_app; simpl; lia|].
    exists (pre ++ [jn]). rewrite <- app_assoc. split; [done|].
    rewrite length_app. simpl. lia.
Qed.

(** With enough angles and speeds for the entries still to come, the loop
    returns a response, and its message is one of the loop's four. *)
Lemma send_loop_returns request response part rest :
  ∀ i w,
    (i + length rest ≤ length (angle request))%nat →
    (i + length rest ≤ length (speed request))%nat →
    ∃ resp t w',
      send_loop env request response part rest i w = (inr resp, t, w')
      ∧ result resp ∈ [msg_wrong_joint; msg_angle; msg_speed; msg_success].
Proof.
  induction rest as [|jn rest IH]; intros i w Hla Hls; simpl in *.
  - eexists _, _, _. split; [done|]. simpl. rewrite !elem_of_cons. auto.
  - destruct (joint_ok jn).
    2: { eexists _, _, _. split; [done|]. simpl. rewrite !elem_of_cons. auto. }
    destruct (lookup_lt_is_Some_2 (angle request) i) as [a Ha]; [lia|].
    destruct (lookup_lt_is_Some_2 (speed request) i) as [s Hs]; [lia|].
    rewrite (bind_inr _ _ _ _ _ _ (index_Some _ _ _ w Ha)), prepend_nil.
    destruct (angle_ok a).
    2: { eexists _, _, _. split; [done|]. simpl. rewrite !elem_of_cons. auto. }
    rewrite (bind_inr _ _ _ _ _ _ (index_Some _ _ _ w Hs)), prepend_nil.
    destruct (speed_ok s).
    2: { eexists _, _, _. split; [done|]. simpl. rewrite !elem_of_cons. auto. }
    rewrite (bind_inr _ _ _ _ _ _ (index_Some _ _ _ w Ha)), prepend_nil.
    rewrite (bind_inr _ _ _ _ _ _ (index_Some _ _ _ w Hs)), prepend_nil.
    rewrite (bind_inr _ _ w tt [EvSendAngle part jn a s]
               (env_send_angle env part jn a s w)) by done.
    destruct (IH (S i) (env_send_angle env part jn a s w))
      as (resp & t & w' & -> & Hin); [lia..|].
    by eexists _, _, _.
Qed.

Lemma callback_returns request response w :
  (length (joint_number request) ≤ length (angle request))%nat →
  (length (joint_number request) ≤ length (speed request))%nat →
  ∃ resp t w',
    send_joint_angles_callback env request response w = (inr resp, t, w')
    ∧ result resp ∈ service_messages.
Proof.
  intros Hla Hls.
  assert (Hloop : ∀ part, ∃ resp t w',
    prepend [request_log request]
      (send_loop env request response part (joint_number request) 0 w)
    = (inr resp, t, w') ∧ result resp ∈ service_messages).
  { intros part.
    destruct (send_loop_returns request response part (joint_number request)
                0%nat w) as (resp & t & w' & -> & Hin); [done..|].
    eexists _, _, _. split; [done|].
    unfold service_messages. rewrite elem_of_cons. by right. }
  destruct (decide (part_id request ∈ ["L"; "R"; "W"])) as [Hin|Hout].
  - rewrite !elem_of_cons, elem_of_nil in Hin.
    destruct Hin as [H|[H|[H|[]]]].
    + rewrite (callback_resolved _ _ 1); [apply Hloop|].
      rewrite H. unfold part_codes. rewrite !elem_of_cons. auto.
    + rewrite (callback_resolved _ _ 2); [apply Hloop|].
      rewrite H. unfold part_codes. rewrite !elem_of_cons. auto.
    + rewrite (callback_resolved _ _ 3); [apply Hloop|].
      rewrite H. unfold part_codes. rewrite !elem_of_cons. auto.
  - rewrite callback_unresolved by done. eexists _, _, _. split; [done|].
    unfold service_messages. rewrite elem_of_cons. by left.
Qed.

(** C8: in the dispatch loop the cursor [i] is the number of entries
    applied so far and the index of the current iteration, an entry that
    fails a check ending the loop at once.  So when the angle and speed
    sequences are at least as long as [joint_number], [angle[i]] and
    [speed[i]] are in bounds at every iteration and the callback returns a
    response: no out-of-range error is raised. *)
Theorem cursor_is_the_iteration_index request response part w :
  (length (joint_number request) ≤ length (angle request))%nat →
  (length (joint_number request) ≤ length (speed request))%nat →
  (∀ rest i sent,
     loop_state request part rest i sent →
     i = length (send_calls sent)
     ∧ (i + length rest)%nat = length (joint_number request)
     ∧ (rest ≠ [] →
        is_Some (angle request !! i) ∧ is_Some (speed request !! i))
     ∧ ∃ w', send_loop env request response part (joint_number request) 0 w
             = prepend sent (send_loop env request response part rest i w'))
  ∧ (∃ resp,
       outcome (send_loop env request response part (joint_number request) 0 w)
       = inr resp)
  ∧ (∃ resp,
       outcome (send_joint_angles_callback env request response w) = inr resp).
Proof.
  intros Hla Hls. split_and!.
  - intros rest i sent Hst.
    destruct (loop_state_cursor _ _ _ _ _ Hst) as (Hi & pre & Hpre & Hlen).
    assert (Hsent : send_calls sent = sent).
    { clear -Hst. induction Hst as [|jn rest i sent a s _ IH _ _ _ _ _];
        [done|]. by rewrite send_calls_app, IH. }
    assert (Hidx : (i + length rest)%nat = length (joint_number request))
      by (rewrite Hpre, length_app; lia).
    split_and!; [by rewrite Hsent|done| |by apply loop_state_sound].
    intros Hne. destruct rest as [|jn rest]; [done|]. simpl in Hidx.
    split; apply lookup_lt_is_Some_2; lia.
  - destruct (send_loop_returns request response part
                (joint_number request) 0%nat w)
      as (resp & t & w' & -> & _); [done..|]. by exists resp.
  - destruct (callback_returns request response w)
      as (resp & t & w' & -> & _); [done..|]. by exists resp.
Qed.

Lemma every_message_is_surfaced response w m :
  m ∈ service_messages →
  parallel (request_of_message m)
  ∧ outcome (send_joint_angles_callback env (request_of_message m) response w)
    = inr {| result := m |}.
Proof.
  unfold service_messages. rewrite !elem_of_cons, elem_of_nil.
  intros [->|[->|[->|[->|[->|[]]]]]]; (split; [by split|]); vm_compute;
    reflexivity.
Qed.

(** C7 (amended): for every request with parallel entry sequences the
    callback returns exactly one response; its message is never empty and
    is one of five fixed strings, the four error messages (wrong part id,
    wrong joint number, angle out of range, speed out of range) and the
    success message; each of the five is the answer to some request. *)
Theorem callback_answers_with_one_of_five_messages request response w :
  parallel request →
  (∃ resp,
     outcome (send_joint_angles_callback env request response w) = inr resp
     ∧ result resp ∈ ["Error: Wrong ID of robot part, use only L, R or W";
                      "Error: Wrong joint number (only 1 .. 6)";
                      "Error: Angle is out of range (-175 .. 175)";
                      "Error: Speed is out of range (1 .. 100)";
                      "Success: Angles sent"]
     ∧ result resp ≠ "")
  ∧ ∀ m, m ∈ service_messages →
      ∃ request',
        parallel request'
        ∧ outcome (send_joint_angles_callback env request' response w)
          = inr {| result := m |}.
Proof.
  intros [Ha Hs]. split.
  - destruct (callback_returns request response w)
      as (resp & t & w' & -> & Hin); [lia..|].
    exists resp. split_and!; [done|done|].
    intros Hempty. rewrite Hempty in Hin. unfold service_messages in Hin.
    rewrite !elem_of_cons, elem_of_nil in Hin.
    by destruct Hin as [?|[?|[?|[?|[?|[]]]]]].
  - intros m Hm. exists (request_of_message m).
    by apply every_message_is_surfaced.
Qed.

End Dispatch.

(** ** Telemetry *)



(** What converts is a list of numbers, and converts to them. *)
Lemma py_float_each_inr (l : list pyval) fs :
  py_float_each l = inr fs → l = PyNum <$> fs.
Proof.
  revert fs. induction l as [|v l IH]; intros fs; simpl.
  - by intros [= <-].
  - destruct v as [|f|l']; simpl; try done.
    destruct (py_float_each l) as [e|fs']; [done|].
    intros [= <-]. by rewrite (IH fs').
Qed.

(** The only way the conversions fail is [TypeError]. *)
Lemma py_float_each_inl (l : list pyval) e :
  py_float_each l = inl e → e = TypeError.
Proof.
  induction l as [|v l IH]; simpl; [done|].
  destruct v as [|f|l']; simpl; try by intros [= <-].
  destruct (py_float_each l) as [e'|fs]; [|done].
  intros [= <-]. by apply IH.
Qed.

Lemma py_float_list_inr v fs :
  py_float_list v = inr fs → v = PyFloats fs.
Proof.
  destruct v as [|f|l]; simpl; try done.
  intros H. unfold PyFloats. by rewrite (py_float_each_inr l fs H).
Qed.

Lemma py_float_list_inl v e : py_float_list v = inl e → e = TypeError.
Proof.
  destruct v as [|f|l]; simpl; try by intros [= <-].
  apply py_float_each_inl.
Qed.

Lemma py_float_inr v x : py_float v = inr x → v = PyNum x.
Proof. destruct v; simpl; try done. by intros [= <-]. Qed.

Lemma py_float_inl v e : py_float v = inl e → e = TypeError.
Proof. destruct v; simpl; try done; by intros [= <-]. Qed.

Section Telemetry.
Context {W : Type} (env : Env W).
Implicit Types (w : W).

(** The seven ways a tick can go: one of the three reads raises, or
    returns a value that does not convert, or all three return numbers and
    the message is published. *)
Lemma tick_cases w :
  let r := joint_state_callback env w in
  (∃ e, outcome r = inl e ∧ trace r = [EvGetAngles 1 (inl e)])
  ∨ (∃ v1, py_float_list v1 = inl TypeError ∧ outcome r = inl TypeError
       ∧ trace r = [EvGetAngles 1 (inr v1)])
  ∨ (∃ l1 e, outcome r = inl e
       ∧ trace r = [EvGetAngles 1 (inr (PyFloats l1)); EvGetAngles 2 (inl e)])
  ∨ (∃ l1 v2, py_float_list v2 = inl TypeError ∧ outcome r = inl TypeError
       ∧ trace r = [EvGetAngles 1 (inr (PyFloats l1));
                    EvGetAngles 2 (inr v2)])
  ∨ (∃ l1 l2 e, outcome r = inl e
       ∧ trace r = [EvGetAngles 1 (inr (PyFloats l1));
                    EvGetAngles 2 (inr (PyFloats l2));
                    EvGetAngle 3 1 (inl e)])
  ∨ (∃ l1 l2 v3, py_float v3 = inl TypeError ∧ outcome r = inl TypeError
       ∧ trace r = [EvGetAngles 1 (inr (PyFloats l1));
                    EvGetAngles 2 (inr (PyFloats l2));
                    EvGetAngle 3 1 (inr v3)])
  ∨ (∃ l1 l2 x t1 t2 t3, outcome r = inr tt
       ∧ trace r = [EvGetAngles 1 (inr (PyFloats l1));
                    EvGetAngles 2 (inr (PyFloats l2));
                    EvGetAngle 3 1 (inr (PyNum x));
                    EvPublish telemetry_topic (tick_message l1 l2 x t1 t2 t3)]).
Proof.
  unfold joint_state_callback, bind, get_angles, get_angle, now, publish, emit,
    lift.
  simpl.
  destruct (env_get_angles env 1 w) as [[e|v1] w1]; simpl; [eauto 10|].
  destruct (py_float_list v1) as [e|l1] eqn:H1; simpl.
  { apply py_float_list_inl in H1 as H1'. subst e. right. left. by exists v1. }
  apply py_float_list_inr in H1 as ->.
  destruct (env_now env w1) as [t1 w2]; simpl.
  destruct (env_get_angles env 2 w2) as [[e|v2] w3]; simpl; [eauto 10|].
  destruct (py_float_list v2) as [e|l2] eqn:H2; simpl.
  { apply py_float_list_inl in H2 as H2'. subst e.
    do 3 right. left. by exists l1, v2. }
  apply py_float_list_inr in H2 as ->.
  destruct (env_now env w3) as [t2 w4]; simpl.
  destruct (env_get_angle env 3 1 w4) as [[e|v3] w5]; simpl; [eauto 12|].
  destruct (py_float v3) as [e|x] eqn:H3; simpl.
  { apply py_float_inl in H3 as H3'. subst e.
    do 5 right. left. by exists l1, l2, v3. }
  apply py_float_inr in H3 as ->.
  destruct (env_now env w5) as [t3 w6]; simpl.
  do 6 right. by exists l1, l2, x, t1, t2, t3.
Qed.

Ltac tick_by_cases w :=
  destruct (tick_cases w)
    as [(e' & Ho & Ht)
       |[(v1 & Hbad & Ho & Ht)
       |[(l1 & e' & Ho & Ht)
       |[(l1 & v2 & Hbad & Ho & Ht)
       |[(l1 & l2 & e' & Ho & Ht)
       |[(l1 & l2 & v3 & Hbad & Ho & Ht)
       |(l1 & l2 & x & t1 & t2 & t3 & Ho & Ht)]]]]]].



Lemma tick_returns w :
  let r := joint_state_callback env w in
  outcome r = inr tt →
  ∃ l1 l2 x t1 t2 t3,
    trace r = [EvGetAngles 1 (inr (PyFloats l1));
               EvGetAngles 2 (inr (PyFloats l2));
               EvGetAngle 3 1 (inr (PyNum x));
               EvPublish telemetry_topic (tick_message l1 l2 x t1 t2 t3)].
Proof.
  intros r Hr. subst r.
  tick_by_cases w; rewrite Ho in Hr; simplify_eq.
  by exists l1, l2, x, t1, t2, t3.
Qed.

(** C6: a successful tick (no read raises, and [get_angles] gives the six
    values the Device Link promises) makes exactly three reads,
    [get_angles(1)], [get_angles(2)] and [get_angle(3, 1)], and publishes
    exactly one message; its three sub-records carry the positions read in
    this tick, of length 6, 6 and 1, and empty velocity and effort. *)
Theorem successful_tick_reads_three_times_and_publishes_once w :
  let r := joint_state_callback env w in
  outcome r = inr tt →
  six_angles (trace r) →
  ∃ l1 l2 x msg,
    trace r = [EvGetAngles 1 (inr (PyFloats l1));
               EvGetAngles 2 (inr (PyFloats l2));
               EvGetAngle 3 1 (inr (PyNum x));
               EvPublish "myBuddy280/joints/angles" msg]
    ∧ link_calls (trace r)
      = [EvGetAngles 1 (inr (PyFloats l1)); EvGetAngles 2 (inr (PyFloats l2));
         EvGetAngle 3 1 (inr (PyNum x))]
    ∧ publishes (trace r) = [EvPublish "myBuddy280/joints/angles" msg]
    ∧ position (left_arm msg) = l1
    ∧ position (right_arm msg) = l2
    ∧ position (waist msg) = [x]
    ∧ length (position (left_arm msg)) = 6%nat
    ∧ length (position (right_arm msg)) = 6%nat
    ∧ length (position (waist msg)) = 1%nat
    ∧ velocity (left_arm msg) = [] ∧ effort (left_arm msg) = []
    ∧ velocity (right_arm msg) = [] ∧ effort (right_arm msg) = []
    ∧ velocity (waist msg) = [] ∧ effort (waist msg) = [].
Proof.
  intros r Hok Hsix.
  destruct (tick_returns w Hok) as (l1 & l2 & x & t1 & t2 & t3 & Ht).
  fold r in Ht. rewrite Ht in Hsix |- *.
  exists l1, l2, x, (tick_message l1 l2 x t1 t2 t3). simpl.
  split_and!; try done.
  - rewrite <- (length_fmap PyNum l1).
    apply (Hsix 1). rewrite !elem_of_cons. auto.
  - rewrite <- (length_fmap PyNum l2).
    apply (Hsix 2). rewrite !elem_of_cons. auto.
Qed.


End Telemetry.

(** ** Start-up *)

Section Startup.
Context {W : Type} (env : Env W).
Implicit Types (w : W) (self : Node).

Lemma init_body_port_missing self w w' :
  env_connect env SERIAL_PORT BAUD_RATE w = (inl SerialException, w') →
  executor self = None →
  init_body env self w
  = (inl AttributeError,
     [EvConnect SERIAL_PORT BAUD_RATE (inl SerialException);
      EvLog Error "Serial port not found"], w').
Proof.
  intros Hc Hex.
  unfold init_body, bind, try_except, MyBuddy_connect, executor_remove_node.
  rewrite Hc, Hex. reflexivity.
Qed.

(** The handler of [SerialException] ends in no [return] and no [raise]:
    were the node already attached to an executor, [__init__] would go on
    to the registrations with [mc] unset.  [main] never builds such a
    node. *)
Lemma init_body_attached_falls_through self ex w w' :
  env_connect env SERIAL_PORT BAUD_RATE w = (inl SerialException, w') →
  executor self = Some ex →
  ∃ node,
    init_body env self w
    = (inr node,
       [EvConnect SERIAL_PORT BAUD_RATE (inl SerialException);
        EvLog Error "Serial port not found"; EvRemoveNode; EvShutdown;
        EvCreatePublisher "myBuddy280/joints/angles";
        EvCreateTimer 0.5%float;
        EvCreateService "myBuddy280/send_joint_angles"], w')
    ∧ mc node = mc self.
Proof.
  intros Hc Hex.
  unfold init_body, bind, try_except, MyBuddy_connect, executor_remove_node.
  rewrite Hc, Hex. simpl. by eexists.
Qed.

Lemma main_port_found w w' :
  env_connect env SERIAL_PORT BAUD_RATE w = (inr tt, w') →
  ∃ node,
    main env w
    = (inr node,
       [EvRclpyInit; EvConnect SERIAL_PORT BAUD_RATE (inr tt);
        EvLog Info "Serial port is successfully found";
        EvCreatePublisher "myBuddy280/joints/angles";
        EvCreateTimer 0.5%float;
        EvCreateService "myBuddy280/send_joint_angles";
        EvAddNode; EvSpin], w')
    ∧ mc node = Some {| mb_port := SERIAL_PORT; mb_baud := BAUD_RATE |}
    ∧ executor node = Some MultiThreadedExecutor.
Proof.
  intros Hc.
  unfold main, MyBuddy280ROSWrapper_init, init_body, bind, try_except,
    MyBuddy_connect.
  simpl. rewrite Hc. simpl. by eexists.
Qed.

(** C4: when the Device Link cannot be constructed because the serial port
    is unavailable, start-up is fatal.  In a node that no executor has taken
    yet, as it is inside [__init__], the handler of the failure raises, so
    the constructor does not return and the publisher, the timer and the
    service are not created; [main] builds the node outside its [try] and
    before [add_node], so it ends there too: the node is not added to the
    executor and nothing spins. *)
Theorem startup_failure_is_fatal self w w' :
  env_connect env SERIAL_PORT BAUD_RATE w = (inl SerialException, w') →
  executor self = None →
  outcome (init_body env self w) = inl AttributeError
  ∧ trace (init_body env self w)
    = [EvConnect "/dev/ttyAMA0" 115200 (inl SerialException);
       EvLog Error "Serial port not found"]
  ∧ registrations (trace (init_body env self w)) = []
  ∧ outcome (main env w) = inl AttributeError
  ∧ trace (main env w)
    = [EvRclpyInit; EvConnect "/dev/ttyAMA0" 115200 (inl SerialException);
       EvLog Error "Serial port not found"]
  ∧ registrations (trace (main env w)) = []
  ∧ (EvAddNode ∉ trace (main env w))
  ∧ (EvSpin ∉ trace (main env w)).
Proof.
  intros Hc Hex.
  rewrite (init_body_port_missing self w w' Hc Hex).
  assert (Hr : main env w
               = (inl AttributeError,
                  [EvRclpyInit;
                   EvConnect SERIAL_PORT BAUD_RATE (inl SerialException);
                   EvLog Error "Serial port not found"], w')).
  { unfold main, MyBuddy280ROSWrapper_init.
    rewrite (bind_inr _ _ w tt [EvRclpyInit] w) by done.
    by rewrite (bind_inl _ _ _ _ _ _
                  (init_body_port_missing (Node_init _) w w' Hc eq_refl)). }
  rewrite Hr. simpl.
  split_and!; try done; intros Hin; in_trace Hin.
Qed.

End Startup.

Example scenario_L_run :
  send_joint_angles_callback demo_env scenario_L blank tt
  = (inr {| result := "Error: Angle is out of range (-175 .. 175)" |},
     [EvLog Info "Request for sending command to L robot part";
      EvSendAngle 1 1 10.0%float 50], tt).
Proof. vm_compute. reflexivity. Qed.

Example scenario_W_run :
  send_joint_angles_callback demo_env scenario_W blank tt
  = (inr {| result := "Success: Angles sent" |},
     [EvLog Info "Request for sending command to W robot part";
      EvSendAngle 3 1 5.0%float 10], tt).
Proof. vm_compute. reflexivity. Qed.

(** Both ends of the angle range pass; not-a-number does not. *)
Example angle_ok_ends :
  angle_ok 175.0 = true ∧ angle_ok (-175.0) = true
  ∧ angle_ok 175.5 = false ∧ angle_ok nan = false.
Proof. vm_compute. auto. Qed.

(** A request whose angle sequence is too short raises where the loop
    indexes it. *)
Example short_angle_sequence_raises :
  send_joint_angles_callback demo_env
    {| part_id := "L"; joint_number := [1; 2];
       angle := [10.0]%float; speed := [50; 50] |} blank tt
  = (inl IndexError,
     [EvLog Info "Request for sending command to L robot part";
      EvSendAngle 1 1 10.0%float 50], tt).
Proof. vm_compute. reflexivity. Qed.

Lemma first_invalid_entry_stops_the_batch_witness :
  parallel scenario_L
  ∧ entries scenario_L !! 1%nat
    = Some {| e_joint := 2; e_angle := 200.0; e_speed := 50 |}
  ∧ trace (send_joint_angles_callback demo_env scenario_L blank tt)
    = [request_log scenario_L; EvSendAngle 1 1 10.0%float 50]
  ∧ length (send_calls
              (trace (send_joint_angles_callback demo_env scenario_L blank tt)))
    = 1%nat.
Proof.
  destruct (first_invalid_entry_stops_the_batch demo_env scenario_L blank 1 tt
              1 {| e_joint := 2; e_angle := 200.0; e_speed := 50 |})
    as (Ht & _ & Hl & _).
  - part_code.
  - by split.
  - intros [|j] e' Hj He; [|lia]. injection He as <-. entry_valid.
  - reflexivity.
  - intros (_ & [_ Hhi] & _). vm_compute in Hhi. discriminate Hhi.
  - split_and!; [by split|reflexivity|exact Ht|exact Hl].
Defined.

Lemma valid_batch_sends_every_entry_witness :
  parallel scenario_W
  ∧ Forall valid_entry (entries scenario_W)
  ∧ outcome (send_joint_angles_callback demo_env scenario_W blank tt)
    = inr {| result := "Success: Angles sent" |}
  ∧ send_calls (trace (send_joint_angles_callback demo_env scenario_W blank tt))
    = [EvSendAngle 3 1 5.0%float 10].
Proof.
  assert (Hv : Forall valid_entry (entries scenario_W)).
  { apply Forall_cons. split; [entry_valid|apply Forall_nil_2]. }
  destruct (valid_batch_sends_every_entry demo_env scenario_W blank 3 tt)
    as (Ho & _ & Hs & _).
  - part_code.
  - by split.
  - exact Hv.
  - split_and!; [by split|exact Hv|exact Ho|exact Hs].
Defined.

Lemma wrong_part_id_makes_no_call_witness :
  (part_id scenario_X ∉ ["L"; "R"; "W"])
  ∧ outcome (send_joint_angles_callback demo_env scenario_X blank tt)
    = inr {| result := "Error: Wrong ID of robot part, use only L, R or W" |}
  ∧ link_calls (trace (send_joint_angles_callback demo_env scenario_X blank tt))
    = [].
Proof.
  assert (Hx : part_id scenario_X ∉ ["L"; "R"; "W"]).
  { rewrite !not_elem_of_cons. split_and!; try discriminate.
    apply not_elem_of_nil. }
  destruct (wrong_part_id_makes_no_call demo_env scenario_X blank tt Hx)
    as (Ho & _ & Hl & _).
  split_and!; [exact Hx|exact Ho|exact Hl].
Defined.

Lemma empty_batch_succeeds_witness :
  joint_number scenario_empty = []
  ∧ outcome (send_joint_angles_callback demo_env scenario_empty blank tt)
    = inr {| result := "Success: Angles sent" |}
  ∧ send_calls
      (trace (send_joint_angles_callback demo_env scenario_empty blank tt))
    = [].
Proof.
  destruct (empty_batch_succeeds demo_env scenario_empty blank 2 tt)
    as (Ho & Hs & _).
  - part_code.
  - reflexivity.
  - split_and!; [reflexivity|exact Ho|exact Hs].
Defined.

Lemma waist_accepts_joints_2_to_6_witness :
  part_id scenario_W4 = "W"
  ∧ entries scenario_W4 !! 0%nat
    = Some {| e_joint := 4; e_angle := (-175.0); e_speed := 100 |}
  ∧ send_calls (trace (send_joint_angles_callback demo_env scenario_W4 blank tt))
    !! 0%nat
    = Some (EvSendAngle 3 4 (-175.0)%float 100)
  ∧ outcome (send_joint_angles_callback demo_env scenario_W4 blank tt)
    = inr {| result := "Success: Angles sent" |}.
Proof.
  assert (Hv : valid_entry {| e_joint := 4; e_angle := (-175.0);
                              e_speed := 100 |}).
  { entry_valid. }
  destruct (waist_accepts_joints_2_to_6 demo_env scenario_W4 blank tt 0
              {| e_joint := 4; e_angle := (-175.0); e_speed := 100 |})
    as (Hs & Ho).
  - reflexivity.
  - by split.
  - intros [|j] e' Hj He; [|lia]. by injection He as <-.
  - reflexivity.
  - simpl. lia.
  - split_and!; [reflexivity|reflexivity|exact Hs|].
    apply Ho. apply Forall_cons. split; [exact Hv|apply Forall_nil_2].
Defined.

Lemma cursor_is_the_iteration_index_witness :
  (length (joint_number scenario_L) ≤ length (angle scenario_L))%nat
  ∧ (length (joint_number scenario_L) ≤ length (speed scenario_L))%nat
  ∧ ∃ resp,
      outcome (send_joint_angles_callback demo_env scenario_L blank tt)
      = inr resp.
Proof.
  destruct (cursor_is_the_iteration_index demo_env scenario_L blank 1 tt)
    as (_ & _ & Hc); [simpl; lia..|].
  split_and!; [simpl; lia..|exact Hc].
Defined.

Lemma callback_answers_with_one_of_five_messages_witness :
  parallel scenario_L
  ∧ ∃ resp,
      outcome (send_joint_angles_callback demo_env scenario_L blank tt)
      = inr resp
      ∧ result resp ≠ "".
Proof.
  destruct (callback_answers_with_one_of_five_messages demo_env scenario_L
              blank tt) as [(resp & Ho & _ & Hne) _]; [by split|].
  split; [by split|]. exists resp. by split.
Defined.

Lemma successful_tick_reads_three_times_and_publishes_once_witness :
  outcome (joint_state_callback demo_env tt) = inr tt
  ∧ six_angles (trace (joint_state_callback demo_env tt))
  ∧ ∃ msg,
      publishes (trace (joint_state_callback demo_env tt))
      = [EvPublish "myBuddy280/joints/angles" msg]
      ∧ length (position (left_arm msg)) = 6%nat
      ∧ length (position (right_arm msg)) = 6%nat
      ∧ length (position (waist msg)) = 1%nat.
Proof.
  assert (Hsix : six_angles (trace (joint_state_callback demo_env tt))).
  { intros id l Hin. vm_compute in Hin. in_trace Hin; reflexivity. }
  destruct (successful_tick_reads_three_times_and_publishes_once demo_env tt
              eq_refl Hsix)
    as (l1 & l2 & x & msg & _ & _ & Hp & _ & _ & _ & H1 & H2 & H3 & _).
  split_and!; [reflexivity|exact Hsix|].
  exists msg. split_and!; [exact Hp|exact H1|exact H2|exact H3].
Defined.


Lemma startup_failure_is_fatal_witness :
  env_connect no_port_env SERIAL_PORT BAUD_RATE tt = (inl SerialException, tt)
  ∧ executor (Node_init "mybuddy280_ros2_wrapper") = None
  ∧ outcome (main no_port_env tt) = inl AttributeError
  ∧ registrations (trace (main no_port_env tt)) = [].
Proof.
  destruct (startup_failure_is_fatal no_port_env
              (Node_init "mybuddy280_ros2_wrapper") tt tt eq_refl eq_refl)
    as (_ & _ & _ & Ho & _ & Hreg & _).
  split_and!; [reflexivity|reflexivity|exact Ho|exact Hreg].
Defined.

(** ** Where the specification and the code part *)


(** C7, as first stated, fails on the count: no four strings hold every
    message the callback answers with, because five different ones occur. *)
Lemma four_strings_do_not_cover_the_messages :
  ¬ ∃ msgs : list string,
      length msgs = 4%nat
      ∧ ∀ request, parallel request →
          ∃ resp,
            outcome (send_joint_angles_callback demo_env request blank tt)
            = inr resp
            ∧ result resp ∈ msgs.
Proof.
  intros (msgs & Hlen & Hall).
  assert (Hsub : service_messages ⊆+ msgs).
  { apply NoDup_submseteq.
    - unfold service_messages. repeat (apply NoDup_cons; split);
        [| | | | |apply NoDup_nil_2];
        rewrite ?not_elem_of_cons; split_and?; try discriminate;
        apply not_elem_of_nil.
    - intros m Hm.
      destruct (every_message_is_surfaced demo_env blank tt m Hm) as [Hp Ho].
      destruct (Hall _ Hp) as (resp & Ho' & Hin).
      rewrite Ho in Ho'. by simplify_eq. }
  apply submseteq_length in Hsub. rewrite Hlen in Hsub. simpl in Hsub. lia.
Qed.

(** * Beyond the claims: what else the dispatcher guarantees *)

Section DispatchShape.
Context {W : Type} (env : Env W).
Implicit Types (request : Request) (response : Response) (part : Z).
Implicit Types (e : Entry) (es : list Entry) (w : W) (i n : nat).

Lemma loop_stop_cons request response jn rest i n o :
  loop_stop request response rest (S i) n o →
  loop_stop request response (jn :: rest) i (S n) o.
Proof.
  destruct 1;
    [apply stop_done; simpl; lia
    |eapply stop_joint|eapply stop_angle|eapply stop_speed
    |eapply stop_no_angle|eapply stop_no_speed];
    rewrite ?Nat.add_succ_r; simpl in *; done.
Qed.

(** The whole behaviour of the loop, for any request: it sends a run of
    valid entries, read off the three sequences from the cursor on, and
    ends as [loop_stop] says. *)
Lemma send_loop_shape request response part rest :
  ∀ i w, ∃ es o,
    send_loop env request response part rest i w
    = (o, send_event part <$> es, apply_sends env part es w)
    ∧ Forall valid_entry es
    ∧ e_joint <$> es = take (length es) rest
    ∧ e_angle <$> es = take (length es) (drop i (angle request))
    ∧ e_speed <$> es = take (length es) (drop i (speed request))
    ∧ loop_stop request response rest i (length es) o.
Proof.
  induction rest as [|jn rest IH]; intros i w.
  { exists [], (inr (set_result response msg_success)).
    split_and!; try done. by apply stop_done. }
  simpl. destruct (joint_ok jn) eqn:Hj.
  2: { exists [], (inr (set_result response msg_wrong_joint)).
       split_and!; try done. eapply stop_joint; [done|].
       intros Hr. apply joint_ok_spec in Hr. congruence. }
  apply joint_ok_spec in Hj.
  destruct (angle request !! i) as [a|] eqn:Ha.
  2: { exists [], (inl IndexError).
       rewrite (bind_inl _ _ _ _ _ _ (index_None _ _ w Ha)).
       split_and!; try done. eapply stop_no_angle; [done..|].
       by rewrite Nat.add_0_r. }
  rewrite (bind_inr _ _ _ _ _ _ (index_Some _ _ _ w Ha)), prepend_nil.
  destruct (angle_ok a) eqn:Hang.
  2: { exists [], (inr (set_result response msg_angle)).
       split_and!; try done. eapply stop_angle; [done..| |done].
       by rewrite Nat.add_0_r. }
  destruct (speed request !! i) as [s|] eqn:Hs.
  2: { exists [], (inl IndexError).
       rewrite (bind_inl _ _ _ _ _ _ (index_None _ _ w Hs)).
       split_and!; try done. eapply stop_no_speed; [done..| |done|];
         by rewrite Nat.add_0_r. }
  rewrite (bind_inr _ _ _ _ _ _ (index_Some _ _ _ w Hs)), prepend_nil.
  destruct (speed_ok s) eqn:Hsp.
  2: { exists [], (inr (set_result response msg_speed)).
       split_and!; try done. eapply stop_speed; [done..| |done| |done];
         by rewrite Nat.add_0_r. }
  rewrite (bind_inr _ _ _ _ _ _ (index_Some _ _ _ w Ha)), prepend_nil.
  rewrite (bind_inr _ _ _ _ _ _ (index_Some _ _ _ w Hs)), prepend_nil.
  rewrite (bind_inr _ _ w tt [EvSendAngle part jn a s]
             (env_send_angle env part jn a s w)) by done.
  destruct (IH (S i) (env_send_angle env part jn a s w))
    as (es & o & -> & Hv & Hjs & Has & Hss & Hstop).
  exists ({| e_joint := jn; e_angle := a; e_speed := s |} :: es), o.
  split_and!.
  - done.
  - apply Forall_cons. split; [|done].
    split_and!; simpl; [done|by apply angle_ok_spec|by apply speed_ok_spec].
  - by rewrite fmap_cons, Hjs.
  - by rewrite fmap_cons, Has, (drop_S _ _ _ Ha).
  - by rewrite fmap_cons, Hss, (drop_S _ _ _ Hs).
  - by apply loop_stop_cons.
Qed.

Lemma entry_eta e :
  {| e_joint := e_joint e; e_angle := e_angle e; e_speed := e_speed e |} = e.
Proof. by destruct e. Qed.

Lemma entries_lookup_Some request k jn a s :
  joint_number request !! k = Some jn →
  angle request !! k = Some a →
  speed request !! k = Some s →
  entries request !! k
  = Some {| e_joint := jn; e_angle := a; e_speed := s |}.
Proof.
  intros Hj Ha Hs. unfold entries. apply lookup_zip_with_Some.
  exists (jn, a), s. split_and!; [done| |done]. by apply lookup_zip_Some.
Qed.

(** A list of entries whose three projections are the first [n] joint
    numbers, angles and speeds is the first [n] entries. *)
Lemma entries_take request es :
  e_joint <$> es = take (length es) (joint_number request) →
  e_angle <$> es = take (length es) (angle request) →
  e_speed <$> es = take (length es) (speed request) →
  es = take (length es) (entries request).
Proof.
  intros Hj Ha Hs. apply list_eq. intros k.
  destruct (decide (k < length es)%nat) as [Hk|Hk].
  - rewrite lookup_take_lt by done.
    destruct (lookup_lt_is_Some_2 es k Hk) as [e He]. rewrite He.
    assert (Hjk : joint_number request !! k = Some (e_joint e)).
    { rewrite <- (lookup_take_lt _ (length es)) by done.
      by rewrite <- Hj, list_lookup_fmap, He. }
    assert (Hak : angle request !! k = Some (e_angle e)).
    { rewrite <- (lookup_take_lt _ (length es)) by done.
      by rewrite <- Ha, list_lookup_fmap, He. }
    assert (Hsk : speed request !! k = Some (e_speed e)).
    { rewrite <- (lookup_take_lt _ (length es)) by done.
      by rewrite <- Hs, list_lookup_fmap, He. }
    by rewrite (entries_lookup_Some _ _ _ _ _ Hjk Hak Hsk), entry_eta.
  - rewrite lookup_take_ge by lia. apply lookup_ge_None. lia.
Qed.

(** The whole behaviour of the callback for a part that resolves. *)
Lemma callback_shape request response part w :
  (part_id request, part) ∈ part_codes →
  ∃ n o,
    send_joint_angles_callback env request response w
    = (o, request_log request :: (send_event part <$> take n (entries request)),
       apply_sends env part (take n (entries request)) w)
    ∧ length (take n (entries request)) = n
    ∧ Forall valid_entry (take n (entries request))
    ∧ loop_stop request response (joint_number request) 0 n o.
Proof.
  intros Hpart. rewrite (callback_resolved _ _ _ part) by done.
  destruct (send_loop_shape request response part (joint_number request)
              0%nat w) as (es & o & -> & Hv & Hj & Ha & Hs & Hstop).
  change (drop 0 (angle request)) with (angle request) in Ha.
  change (drop 0 (speed request)) with (speed request) in Hs.
  pose proof (entries_take request es Hj Ha Hs) as Hes.
  exists (length es), o. rewrite <- Hes. by split_and!.
Qed.

Lemma loop_stop_length request response rest i n o :
  loop_stop request response rest i n o → (n ≤ length rest)%nat.
Proof.
  destruct 1 as [<-|jn H _|jn a H _ _ _|jn a s H _ _ _ _ _|jn H _ _
                |jn a H _ _ _ _]; [done|..];
    apply lookup_lt_Some in H; lia.
Qed.

(** X1: whatever the request, every call the callback makes on the Device
    Link is a [send_angle] for the group the part code resolves to, with a
    joint number in 1..6, an angle the range check accepts and a speed in
    1..100: no unchecked value reaches the robot. *)
Theorem every_link_call_is_a_checked_send request response w ev :
  ev ∈ link_calls (trace (send_joint_angles_callback env request response w)) →
  ∃ part e,
    (part_id request, part) ∈ part_codes
    ∧ ev = EvSendAngle part (e_joint e) (e_angle e) (e_speed e)
    ∧ 1 ≤ e_joint e ≤ 6
    ∧ angle_ok (e_angle e) = true
    ∧ 1 ≤ e_speed e ≤ 100.
Proof.
  destruct (decide (part_id request ∈ ["L"; "R"; "W"])) as [Hin|Hout].
  - assert (∃ part, (part_id request, part) ∈ part_codes) as [part Hpart].
    { rewrite !elem_of_cons, elem_of_nil in Hin.
      destruct Hin as [H|[H|[H|[]]]]; rewrite H;
        [exists 1|exists 2|exists 3]; part_code. }
    destruct (callback_shape request response part w Hpart)
      as (n & o & -> & _ & Hv & _).
    unfold trace. simpl. rewrite link_calls_sends.
    intros (e & -> & He)%list_elem_of_fmap.
    exists part, e. rewrite Forall_forall in Hv.
    destruct (Hv e He) as (Hj & Ha & Hs).
    split; [done|]. split; [reflexivity|]. split; [exact Hj|].
    split; [by apply angle_ok_spec|exact Hs].
  - rewrite callback_unresolved by done. simpl. by intros ?%elem_of_nil.
Qed.

(** X2: the callback does nothing besides logging the request once and
    sending angles: it makes no read on the Device Link, publishes nothing
    and creates no publisher, timer or service, whatever the request. *)
Theorem callback_logs_once_and_only_sends request response w :
  let r := send_joint_angles_callback env request response w in
  trace r = request_log request :: send_calls (trace r)
  ∧ link_calls (trace r) = send_calls (trace r)
  ∧ reads (trace r) = []
  ∧ publishes (trace r) = []
  ∧ registrations (trace r) = [].
Proof.
  intros r. subst r.
  assert (Hsends : ∀ part es,
    let t := request_log request :: (send_event part <$> es) in
    t = request_log request :: send_calls t
    ∧ link_calls t = send_calls t
    ∧ reads t = [] ∧ publishes t = [] ∧ registrations t = []).
  { intros part es. simpl.
    change (List.filter is_send (send_event part <$> es))
      with (send_calls (send_event part <$> es)).
    change (List.filter is_link (send_event part <$> es))
      with (link_calls (send_event part <$> es)).
    rewrite send_calls_sends, link_calls_sends.
    split_and!; try done; induction es as [|e es IH]; done. }
  destruct (decide (part_id request ∈ ["L"; "R"; "W"])) as [Hin|Hout].
  - assert (∃ part, (part_id request, part) ∈ part_codes) as [part Hpart].
    { rewrite !elem_of_cons, elem_of_nil in Hin.
      destruct Hin as [H|[H|[H|[]]]]; rewrite H;
        [exists 1|exists 2|exists 3]; part_code. }
    destruct (callback_shape request response part w Hpart)
      as (n & o & -> & _). apply Hsends.
  - by rewrite callback_unresolved.
Qed.

Lemma entries_length_min request :
  length (entries request)
  = ((length (joint_number request) `min` length (angle request))
     `min` length (speed request))%nat.
Proof. unfold entries. by rewrite !length_zip_with. Qed.

(** The loop does not end at a valid entry. *)
Lemma loop_stop_not_at_valid request response n o e :
  entries request !! n = Some e →
  valid_entry e →
  ¬ loop_stop request response (joint_number request) 0 n o.
Proof.
  intros He (Hj & [Hlo Hhi] & Hs) Hstop.
  pose proof (proj2 (angle_ok_spec (e_angle e)) (conj Hlo Hhi)) as Hang.
  pose proof (proj2 (speed_ok_spec (e_speed e)) Hs) as Hsp.
  apply entries_lookup in He as (Hjn & Ha & Hsn).
  destruct Hstop as [Hlen|jn H Hbad|jn a H _ Ha' Hbad|jn a s H _ Ha' _ Hs' Hbad
                    |jn H _ Ha'|jn a H _ Ha' _ Hs']; simpl in *; simplify_eq.
  - apply lookup_lt_Some in Hjn. lia.
  - by apply Hbad.
  - congruence.
  - congruence.
Qed.

(** Where the loop ends and what it answers are determined by the
    request. *)
Lemma loop_stop_unique request response n1 n2 o1 o2 :
  length (take n1 (entries request)) = n1 →
  Forall valid_entry (take n1 (entries request)) →
  loop_stop request response (joint_number request) 0 n1 o1 →
  length (take n2 (entries request)) = n2 →
  Forall valid_entry (take n2 (entries request)) →
  loop_stop request response (joint_number request) 0 n2 o2 →
  n1 = n2 ∧ o1 = o2.
Proof.
  intros Hl1 Hv1 Hs1 Hl2 Hv2 Hs2.
  assert (Hlt : ∀ n n' o, (n < n')%nat →
            length (take n' (entries request)) = n' →
            Forall valid_entry (take n' (entries request)) →
            ¬ loop_stop request response (joint_number request) 0 n o).
  { intros n n' o Hn Hl Hv.
    destruct (lookup_lt_is_Some_2 (take n' (entries request)) n) as [e He];
      [lia|].
    pose proof (Forall_lookup_1 _ _ _ _ Hv He) as Hve.
    apply lookup_take_Some in He as [He _].
    by eapply loop_stop_not_at_valid. }
  assert (n1 = n2) as <-.
  { destruct (Nat.lt_trichotomy n1 n2) as [Hn|[Hn|Hn]]; [|done|].
    - by destruct (Hlt n1 n2 o1 Hn Hl2 Hv2).
    - by destruct (Hlt n2 n1 o2 Hn Hl1 Hv1). }
  split; [done|].
  destruct Hs1 as [Hlen|jn H Hbad|jn a H Hj Ha Hbad|jn a s H Hj Ha Hok Hs Hbad
                  |jn H Hj Ha|jn a H Hj Ha Hok Hs];
    destruct Hs2 as [Hlen'|jn' H' Hbad'|jn' a' H' Hj' Ha' Hbad'
                    |jn' a' s' H' Hj' Ha' Hok' Hs' Hbad'
                    |jn' H' Hj' Ha'|jn' a' H' Hj' Ha' Hok' Hs'];
    simpl in *; simplify_eq; try done; try congruence;
    try (apply lookup_lt_Some in H; lia);
    try (apply lookup_lt_Some in H'; lia).
Qed.

(** The converse of [callback_shape]: a valid run of [n] entries followed
    by a reason to stop is what the callback does. *)
Lemma callback_stops_at request response part w n o :
  (part_id request, part) ∈ part_codes →
  length (take n (entries request)) = n →
  Forall valid_entry (take n (entries request)) →
  loop_stop request response (joint_number request) 0 n o →
  send_joint_angles_callback env request response w
  = (o, request_log request :: (send_event part <$> take n (entries request)),
     apply_sends env part (take n (entries request)) w).
Proof.
  intros Hpart Hl Hv Hstop.
  destruct (callback_shape request response part w Hpart)
    as (n' & o' & -> & Hl' & Hv' & Hstop').
  by destruct (loop_stop_unique _ _ _ _ _ _ Hl' Hv' Hstop' Hl Hv Hstop)
    as [-> ->].
Qed.

Lemma resolved_or_not request :
  (∃ part, (part_id request, part) ∈ part_codes)
  ∨ part_id request ∉ ["L"; "R"; "W"].
Proof.
  destruct (decide (part_id request ∈ ["L"; "R"; "W"])) as [Hin|Hout];
    [left|by right].
  rewrite !elem_of_cons, elem_of_nil in Hin.
  destruct Hin as [H|[H|[H|[]]]]; rewrite H;
    [exists 1|exists 2|exists 3]; part_code.
Qed.

(** X3: for a part that resolves, the [send_angle] calls are always the
    first [n] entries of the request, each once and in request order, for
    some [n] up to the length of [joint_number]; nothing is skipped or
    reordered, and the Device Link is changed by exactly these calls. *)
Theorem sends_are_the_first_entries_in_order request response part w :
  (part_id request, part) ∈ part_codes →
  let r := send_joint_angles_callback env request response w in
  ∃ n,
    (n ≤ length (joint_number request))%nat
    ∧ send_calls (trace r) = send_event part <$> take n (entries request)
    ∧ length (send_calls (trace r)) = n
    ∧ world r = apply_sends env part (take n (entries request)) w.
Proof.
  intros Hpart r. subst r.
  destruct (callback_shape request response part w Hpart)
    as (n & o & -> & Hl & _ & Hstop).
  exists n. unfold trace, world. simpl.
  change (List.filter is_send (send_event part <$> take n (entries request)))
    with (send_calls (send_event part <$> take n (entries request))).
  rewrite send_calls_sends, length_fmap.
  split_and!; [by eapply loop_stop_length|done|done|done].
Qed.

(** X4: the success message is only given when the whole batch was
    applied: the part resolved, every joint number had its angle and speed,
    every entry was valid, and each was sent, in order. *)
Theorem success_means_every_entry_was_sent request response w resp :
  let r := send_joint_angles_callback env request response w in
  outcome r = inr resp →
  result resp = "Success: Angles sent" →
  ∃ part,
    (part_id request, part) ∈ part_codes
    ∧ length (entries request) = length (joint_number request)
    ∧ Forall valid_entry (entries request)
    ∧ send_calls (trace r) = send_event part <$> entries request.
Proof.
  intros r Ho Hres. subst r.
  destruct (resolved_or_not request) as [[part Hpart]|Hout].
  2: { rewrite callback_unresolved in Ho by done.
       unfold outcome in Ho. simpl in Ho. by simplify_eq. }
  exists part.
  destruct (callback_shape request response part w Hpart)
    as (n & o & Hrun & Hl & Hv & Hstop).
  rewrite Hrun in Ho |- *. unfold outcome, trace in *. simpl in *. subst o.
  assert (Hn : n = length (joint_number request)).
  { inversion Hstop as [Hlen|jn H Hbad|jn a H Hj Ha Hbad
                       |jn a s H Hj Ha Hok Hs Hbad| |]; subst;
      simpl in Hres; by simplify_eq. }
  assert (Hall : take n (entries request) = entries request).
  { apply take_ge. pose proof (entries_length_min request).
    rewrite length_take in Hl. lia. }
  rewrite Hall in *.
  change (List.filter is_send (send_event part <$> entries request))
    with (send_calls (send_event part <$> entries request)).
  rewrite send_calls_sends. split_and!; try done. lia.
Qed.

(** X5: for a part that resolves, an error message names the check that
    failed at the entry right after the ones that were sent: with [n] calls
    made, the joint message means joint number [n] is outside 1..6, the
    angle message that it is inside and angle [n] fails the range check,
    the speed message that both pass and speed [n] is outside 1..100. *)
Theorem error_message_names_the_failed_check request response part w resp :
  (part_id request, part) ∈ part_codes →
  let r := send_joint_angles_callback env request response w in
  outcome r = inr resp →
  let n := length (send_calls (trace r)) in
  (result resp = "Error: Wrong joint number (only 1 .. 6)" →
   ∃ jn, joint_number request !! n = Some jn ∧ ¬ 1 ≤ jn ≤ 6)
  ∧ (result resp = "Error: Angle is out of range (-175 .. 175)" →
     ∃ jn a,
       joint_number request !! n = Some jn ∧ 1 ≤ jn ≤ 6
       ∧ angle request !! n = Some a ∧ angle_ok a = false)
  ∧ (result resp = "Error: Speed is out of range (1 .. 100)" →
     ∃ jn a s,
       joint_number request !! n = Some jn ∧ 1 ≤ jn ≤ 6
       ∧ angle request !! n = Some a ∧ angle_ok a = true
       ∧ speed request !! n = Some s ∧ ¬ 1 ≤ s ≤ 100)
  ∧ result resp ≠ "Error: Wrong ID of robot part, use only L, R or W".
Proof.
  intros Hpart r Ho n. subst r n.
  destruct (callback_shape request response part w Hpart)
    as (n & o & Hrun & Hl & _ & Hstop).
  rewrite Hrun in Ho |- *. unfold outcome, trace in *. simpl in *. subst o.
  change (List.filter is_send (send_event part <$> take n (entries request)))
    with (send_calls (send_event part <$> take n (entries request))).
  rewrite send_calls_sends, length_fmap, Hl.
  inversion Hstop as [Hlen|jn H Hbad|jn a H Hj Ha Hbad
                     |jn a s H Hj Ha Hok Hs Hbad| |]; subst; simpl in *;
    (split_and!; [intros Hres|intros Hres|intros Hres|done]);
    try (cbv in Hres; discriminate Hres).
  - by exists jn.
  - by exists jn, a.
  - exists jn, a, s. do 5 (split; [done|]).
    intros Hr%speed_ok_spec. congruence.
Qed.

(** X6: an [IndexError] out of the callback's loop means a ragged
    request: the part resolved, [n] entries were already sent, joint
    number [n] is in 1..6, and [angle] or [speed] has no element [n].
    Indexing is the only thing in the callback's own code that raises;
    [send_angle] is taken to return, as the Device Link gives it no
    result. *)
Theorem an_index_error_means_a_ragged_request request response w :
  let r := send_joint_angles_callback env request response w in
  outcome r = inl IndexError →
  let n := length (send_calls (trace r)) in
  (∃ part, (part_id request, part) ∈ part_codes)
  ∧ (n < length (joint_number request))%nat
  ∧ (∃ jn, joint_number request !! n = Some jn ∧ 1 ≤ jn ≤ 6)
  ∧ ((length (angle request) ≤ n)%nat ∨ (length (speed request) ≤ n)%nat)
  ∧ send_calls (trace r) = link_calls (trace r).
Proof.
  intros r Ho n. subst r n.
  destruct (resolved_or_not request) as [[part Hpart]|Hout].
  2: { by rewrite callback_unresolved in Ho. }
  destruct (callback_shape request response part w Hpart)
    as (n & o & Hrun & Hl & _ & Hstop).
  rewrite Hrun in Ho |- *. unfold outcome, trace in *. simpl in *. subst o.
  change (List.filter is_send (send_event part <$> take n (entries request)))
    with (send_calls (send_event part <$> take n (entries request))).
  change (List.filter is_link (send_event part <$> take n (entries request)))
    with (link_calls (send_event part <$> take n (entries request))).
  rewrite send_calls_sends, link_calls_sends, length_fmap, Hl.
  inversion Hstop as [| | | |jn H Hj Ha|jn a H Hj Ha Hok Hs]; subst;
    simpl in *.
  - split_and!; [by exists part|by eapply lookup_lt_Some|by exists jn| |done].
    left. by apply lookup_ge_None.
  - split_and!; [by exists part|by eapply lookup_lt_Some|by exists jn| |done].
    right. by apply lookup_ge_None.
Qed.

(** X7: a ragged request is not rejected up front.  When [joint_number]
    is longer than the shorter of [angle] and [speed], all complete entries
    are valid and the first joint number without a complete entry is in
    1..6 (with an acceptable angle, if it has one), every complete entry is
    sent and then the callback raises [IndexError] instead of answering. *)
Theorem ragged_request_raises_after_sending request response part w jn :
  (part_id request, part) ∈ part_codes →
  Forall valid_entry (entries request) →
  joint_number request !! length (entries request) = Some jn →
  1 ≤ jn ≤ 6 →
  (∀ a, angle request !! length (entries request) = Some a →
        angle_ok a = true) →
  let r := send_joint_angles_callback env request response w in
  outcome r = inl IndexError
  ∧ send_calls (trace r) = send_event part <$> entries request
  ∧ world r = apply_sends env part (entries request) w.
Proof.
  intros Hpart Hv Hjn Hj Hang r. subst r.
  assert (Hstop : loop_stop request response (joint_number request) 0
                    (length (entries request)) (inl IndexError)).
  { destruct (angle request !! length (entries request)) as [a|] eqn:Ha.
    - eapply stop_no_speed; [done..|by apply Hang|].
      apply lookup_ge_None. apply lookup_lt_Some in Hjn, Ha.
      pose proof (entries_length_min request). simpl. lia.
    - by eapply stop_no_angle. }
  rewrite (callback_stops_at request response part w
             (length (entries request)) (inl IndexError));
    rewrite ?firstn_all; try done.
  unfold outcome, trace, world. simpl.
  change (List.filter is_send (send_event part <$> entries request))
    with (send_calls (send_event part <$> entries request)).
  by rewrite send_calls_sends.
Qed.

Lemma loop_stop_with_part c request response rest i n o :
  loop_stop request response rest i n o →
  loop_stop (with_part c request) response rest i n o.
Proof.
  destruct 1;
    [by apply stop_done|by eapply stop_joint|by eapply stop_angle
    |by eapply stop_speed|by eapply stop_no_angle|by eapply stop_no_speed].
Qed.

(** X9: the checks are the same for every part.  The same sequences sent
    to two parts that resolve give the same answer (or the same exception)
    and the same calls, entry by entry, under the two group ids. *)
Theorem checks_do_not_depend_on_the_part request response w c1 c2 p1 p2 :
  (c1, p1) ∈ part_codes →
  (c2, p2) ∈ part_codes →
  let r1 := send_joint_angles_callback env (with_part c1 request) response w in
  let r2 := send_joint_angles_callback env (with_part c2 request) response w in
  outcome r1 = outcome r2
  ∧ ∃ es,
      send_calls (trace r1) = send_event p1 <$> es
      ∧ send_calls (trace r2) = send_event p2 <$> es.
Proof.
  intros H1 H2 r1 r2. subst r1 r2.
  destruct (callback_shape (with_part c1 request) response p1 w H1)
    as (n & o & -> & Hl & Hv & Hstop).
  rewrite (callback_stops_at (with_part c2 request) response p2 w n o);
    [|done|exact Hl|exact Hv|].
  - split; [done|]. exists (take n (entries request)).
    unfold trace. simpl.
    change (List.filter is_send ?t) with (send_calls t).
    by rewrite !send_calls_sends.
  - apply (loop_stop_with_part c2 (with_part c1 request)) in Hstop.
    exact Hstop.
Qed.

End DispatchShape.

Lemma SFeqb_finite_refl s m e :
  SFeqb (S754_finite s m e) (S754_finite s m e) = true.
Proof.
  unfold SFeqb, SFcompare. rewrite Z.compare_refl, Pos.compare_cont_refl.
  by destruct s.
Qed.

(** The range check is two comparisons, and a comparison with
    not-a-number is false: what passes is a finite number. *)
Lemma angle_ok_finite a :
  angle_ok a = true → is_nan a = false ∧ is_infinity a = false.
Proof.
  unfold angle_ok, is_nan, is_infinity.
  rewrite andb_true_iff, !FloatAxioms.leb_spec, !FloatAxioms.eqb_spec,
    abs_spec.
  set (lo := Prim2SF (-175)%float). set (hi := Prim2SF 175%float).
  set (inf := Prim2SF infinity).
  vm_compute in lo, hi, inf. subst lo hi inf.
  destruct (Prim2SF a) as [s|s| |s m e]; intros [Hlo Hhi].
  - done.
  - by destruct s.
  - done.
  - split; [by rewrite SFeqb_finite_refl|done].
Qed.

(** X10: no not-a-number and no infinity is ever sent as an angle: every
    angle in a [send_angle] call of the callback is a finite float,
    whatever the request holds. *)
Theorem every_sent_angle_is_finite {W} (env : Env W) request response w
    id jn a s :
  EvSendAngle id jn a s
    ∈ trace (send_joint_angles_callback env request response w) →
  is_nan a = false ∧ is_infinity a = false ∧ is_finite a = true.
Proof.
  intros Hin.
  assert (Hok : angle_ok a = true).
  { destruct (resolved_or_not request) as [[part Hpart]|Hout].
    - destruct (callback_shape env request response part w Hpart)
        as (n & o & Hrun & _ & Hv & _).
      rewrite Hrun in Hin. unfold trace in Hin. simpl in Hin.
      apply elem_of_cons in Hin as [Hin|Hin]; [done|].
      apply list_elem_of_fmap in Hin as (e & Heq & He).
      rewrite Forall_forall in Hv. destruct (Hv e He) as (_ & Hang & _).
      injection Heq as _ _ -> _. by apply angle_ok_spec.
    - rewrite callback_unresolved in Hin by done.
      unfold trace in Hin. simpl in Hin. in_trace Hin. }
  destruct (angle_ok_finite a Hok) as [Hnan Hinf].
  split_and!; [done|done|]. unfold is_finite. by rewrite Hnan, Hinf.
Qed.

(** * Beyond the claims: telemetry *)

Section TelemetryShape.
Context {W : Type} (env : Env W).
Implicit Types (w : W).

Ltac tick_shape_cases w :=
  destruct (tick_cases env w)
    as [(e' & Ho & Ht)
       |[(v1 & Hbad & Ho & Ht)
       |[(l1 & e' & Ho & Ht)
       |[(l1 & v2 & Hbad & Ho & Ht)
       |[(l1 & l2 & e' & Ho & Ht)
       |[(l1 & l2 & v3 & Hbad & Ho & Ht)
       |(l1 & l2 & x & t1 & t2 & t3 & Ho & Ht)]]]]]].

(** X11: a tick goes one of three ways.  It returns after the three reads
    and exactly one publish; or it raises what one of its reads raised;
    or it raises [TypeError] itself because a read returned something it
    cannot convert ([None], or anything but a list of numbers or a
    number).  A tick that raises publishes nothing.  In every case the
    tick sends no angle, makes at most the three reads of a tick, in their
    order, and creates no publisher, timer or service. *)
Theorem tick_publishes_once_or_raises w :
  let r := joint_state_callback env w in
  ((outcome r = inr tt ∧ length (publishes (trace r)) = 1%nat
    ∧ reads (trace r) = tick_reads)
   ∨ (∃ e, outcome r = inl e ∧ publishes (trace r) = []
        ∧ read_raised e (trace r))
   ∨ (outcome r = inl TypeError ∧ publishes (trace r) = []
        ∧ read_unusable (trace r)))
  ∧ send_calls (trace r) = []
  ∧ reads (trace r) `prefix_of` tick_reads
  ∧ (length (link_calls (trace r)) ≤ 3)%nat
  ∧ registrations (trace r) = [].
Proof.
  intros r. subst r.
  tick_shape_cases w; rewrite Ho, Ht; simpl.
  - split_and!; [right; left; exists e'; split_and!; [done|done|]
                |done|by exists [(2, None); (3, Some 1)]|lia|done].
    exists 1. left. apply list_elem_of_here.
  - split_and!; [do 2 right; split_and!; [done|done|]
                |done|by exists [(2, None); (3, Some 1)]|lia|done].
    exists 1, v1. left. split; [apply list_elem_of_here|done].
  - split_and!; [right; left; exists e'; split_and!; [done|done|]
                |done|by exists [(3, Some 1)]|lia|done].
    exists 2. left. rewrite !elem_of_cons. auto.
  - split_and!; [do 2 right; split_and!; [done|done|]
                |done|by exists [(3, Some 1)]|lia|done].
    exists 2, v2. left. split; [rewrite !elem_of_cons; auto|done].
  - split_and!; [right; left; exists e'; split_and!; [done|done|]
                |done|by exists []|lia|done].
    exists 3. right. exists 1. rewrite !elem_of_cons. auto.
  - split_and!; [do 2 right; split_and!; [done|done|]
                |done|by exists []|lia|done].
    exists 3, v3. right. exists 1. split; [rewrite !elem_of_cons; auto|done].
  - split_and!; [by left|done|by exists []|lia|done].
Qed.

(** X12: a published message carries exactly what the three reads of its
    tick returned, whatever their lengths: the left and right positions
    are the two [get_angles] answers, the waist position is the one
    [get_angle] answer; the joint names are the fixed ones, velocity and
    effort are empty, the topic is fixed, and the publish is the last
    thing the tick does. *)
Theorem published_message_is_what_was_read w topic msg :
  let r := joint_state_callback env w in
  EvPublish topic msg ∈ trace r →
  ∃ x,
    trace r = [EvGetAngles 1 (inr (PyFloats (position (left_arm msg))));
               EvGetAngles 2 (inr (PyFloats (position (right_arm msg))));
               EvGetAngle 3 1 (inr (PyNum x));
               EvPublish "myBuddy280/joints/angles" msg]
    ∧ position (waist msg) = [x]
    ∧ topic = "myBuddy280/joints/angles"
    ∧ outcome r = inr tt
    ∧ name (left_arm msg) = ["LJ1"; "LJ2"; "LJ3"; "LJ4"; "LJ5"; "LJ6"]
    ∧ name (right_arm msg) = ["RJ1"; "RJ2"; "RJ3"; "RJ4"; "RJ5"; "RJ6"]
    ∧ name (waist msg) = ["W"]
    ∧ velocity (left_arm msg) = [] ∧ effort (left_arm msg) = []
    ∧ velocity (right_arm msg) = [] ∧ effort (right_arm msg) = []
    ∧ velocity (waist msg) = [] ∧ effort (waist msg) = [].
Proof.
  intros r Hin. subst r.
  tick_shape_cases w; rewrite Ht in Hin |- *; rewrite Ho; in_trace Hin.
  exists x. by split_and!.
Qed.

(** X13: a published message has as many names as positions in each of
    its three sub-records exactly when both [get_angles] reads of the tick
    returned six values; the callback checks no length itself. *)
Theorem published_message_is_well_formed_iff_six_angles w topic msg :
  let r := joint_state_callback env w in
  EvPublish topic msg ∈ trace r →
  (length (name (left_arm msg)) = length (position (left_arm msg))
   ∧ length (name (right_arm msg)) = length (position (right_arm msg))
   ∧ length (name (waist msg)) = length (position (waist msg)))
  ↔ six_angles (trace r).
Proof.
  intros r Hin. subst r.
  tick_shape_cases w; rewrite Ht in Hin |- *; in_trace Hin.
  simpl. split.
  - intros (H1 & H2 & _) id l Hl. in_trace Hl; by rewrite length_fmap.
  - intros Hsix. split_and!; [| |done].
    + symmetry. rewrite <- (length_fmap PyNum l1).
      apply (Hsix 1). rewrite !elem_of_cons. auto.
    + symmetry. rewrite <- (length_fmap PyNum l2).
      apply (Hsix 2). rewrite !elem_of_cons. auto.
Qed.

End TelemetryShape.

(** * Beyond the claims: start-up and shutdown *)

Section StartupShape.
Context {W : Type} (env : Env W).
Implicit Types (w : W) (spin : Node → M W unit).

(** The three ways [__init__] can go, by what the vendor constructor
    does. *)
Lemma init_cases w :
  (∃ w', env_connect env SERIAL_PORT BAUD_RATE w = (inr tt, w')
     ∧ MyBuddy280ROSWrapper_init env w
       = (inr constructed_node,
          [EvConnect SERIAL_PORT BAUD_RATE (inr tt);
           EvLog Info "Serial port is successfully found";
           EvCreatePublisher "myBuddy280/joints/angles";
           EvCreateTimer 0.5%float;
           EvCreateService "myBuddy280/send_joint_angles"], w'))
  ∨ (∃ w', env_connect env SERIAL_PORT BAUD_RATE w
           = (inl SerialException, w')
       ∧ MyBuddy280ROSWrapper_init env w
         = (inl AttributeError,
            [EvConnect SERIAL_PORT BAUD_RATE (inl SerialException);
             EvLog Error "Serial port not found"], w'))
  ∨ (∃ e w', env_connect env SERIAL_PORT BAUD_RATE w = (inl e, w')
       ∧ e ≠ SerialException
       ∧ MyBuddy280ROSWrapper_init env w
         = (inl e, [EvConnect SERIAL_PORT BAUD_RATE (inl e)], w')).
Proof.
  unfold MyBuddy280ROSWrapper_init, init_body, bind, try_except,
    MyBuddy_connect. simpl.
  destruct (env_connect env SERIAL_PORT BAUD_RATE w) as [[e|[]] w'] eqn:Hc;
    simpl.
  - destruct e; simpl; [right; left; by exists w'|..];
      do 2 right; eexists _, w'; by split_and!.
  - left. by exists w'.
Qed.

(** X14: when [__init__] returns at all, the node it returns holds an open
    Device Link on /dev/ttyAMA0 at 115200 baud and has its publisher, its
    0.5 s timer and its service, created in this order after the link: no
    callback is ever registered on a node without a link. *)
Theorem constructed_wrapper_holds_an_open_link w node :
  outcome (MyBuddy280ROSWrapper_init env w) = inr node →
  node = constructed_node
  ∧ mc node = Some {| mb_port := "/dev/ttyAMA0"; mb_baud := 115200 |}
  ∧ trace (MyBuddy280ROSWrapper_init env w)
    = [EvConnect "/dev/ttyAMA0" 115200 (inr tt);
       EvLog Info "Serial port is successfully found";
       EvCreatePublisher "myBuddy280/joints/angles";
       EvCreateTimer 0.5%float;
       EvCreateService "myBuddy280/send_joint_angles"]
  ∧ ∃ w', env_connect env SERIAL_PORT BAUD_RATE w = (inr tt, w')
          ∧ world (MyBuddy280ROSWrapper_init env w) = w'.
Proof.
  intros Ho.
  destruct (init_cases w)
    as [(w' & Hc & Hi)|[(w' & Hc & Hi)|(e & w' & Hc & He & Hi)]];
    rewrite Hi in Ho |- *; unfold outcome in Ho; simpl in Ho; simplify_eq.
  split_and!; try done. by exists w'.
Qed.

(** X15: only [SerialException] is handled.  Any other exception of the
    vendor constructor leaves [__init__] and [main] as it is: nothing is
    logged, nothing is created, nothing spins. *)
Theorem other_constructor_errors_are_not_handled w w' e :
  env_connect env SERIAL_PORT BAUD_RATE w = (inl e, w') →
  e ≠ SerialException →
  MyBuddy280ROSWrapper_init env w
  = (inl e, [EvConnect "/dev/ttyAMA0" 115200 (inl e)], w')
  ∧ main env w
    = (inl e, [EvRclpyInit; EvConnect "/dev/ttyAMA0" 115200 (inl e)], w').
Proof.
  intros Hc He.
  assert (Hi : MyBuddy280ROSWrapper_init env w
               = (inl e, [EvConnect SERIAL_PORT BAUD_RATE (inl e)], w')).
  { destruct (init_cases w)
      as [(w1 & Hc1 & Hi)|[(w1 & Hc1 & Hi)|(e1 & w1 & Hc1 & He1 & Hi)]];
      rewrite Hc in Hc1; by simplify_eq. }
  split; [done|]. unfold main.
  rewrite (bind_inr _ _ w tt [EvRclpyInit] w) by done.
  by rewrite (bind_inl _ _ _ _ _ _ Hi).
Qed.

(** X16: [main] tries the serial port exactly once, on /dev/ttyAMA0 at
    115200 baud, right after [rclpy.init]: there is no second attempt,
    whatever the first one gives. *)
Theorem main_connects_exactly_once w :
  ∃ r0,
    connects (trace (main env w)) = [EvConnect "/dev/ttyAMA0" 115200 r0]
    ∧ trace (main env w) !! 0%nat = Some EvRclpyInit
    ∧ trace (main env w) !! 1%nat = Some (EvConnect "/dev/ttyAMA0" 115200 r0).
Proof.
  unfold main. rewrite (bind_inr _ _ w tt [EvRclpyInit] w) by done.
  destruct (init_cases w)
    as [(w' & Hc & Hi)|[(w' & Hc & Hi)|(e & w' & Hc & He & Hi)]].
  - exists (inr tt). by rewrite (bind_inr _ _ _ _ _ _ Hi).
  - exists (inl SerialException). by rewrite (bind_inl _ _ _ _ _ _ Hi).
  - exists (inl e). by rewrite (bind_inl _ _ _ _ _ _ Hi).
Qed.

(** X17: the executor starts to spin only when the link is open and the
    node is complete: if [main] gets as far as [spin], then before it the
    port was opened, the publisher, the timer and the service were
    created, in this order, and the node was added to the executor. *)
Theorem main_spins_only_a_complete_node w :
  EvSpin ∈ trace (main env w) →
  trace (main env w)
  = [EvRclpyInit; EvConnect "/dev/ttyAMA0" 115200 (inr tt);
     EvLog Info "Serial port is successfully found";
     EvCreatePublisher "myBuddy280/joints/angles";
     EvCreateTimer 0.5%float;
     EvCreateService "myBuddy280/send_joint_angles";
     EvAddNode; EvSpin]
  ∧ outcome (main env w)
    = inr (set_executor (Some MultiThreadedExecutor) constructed_node).
Proof.
  unfold main. rewrite (bind_inr _ _ w tt [EvRclpyInit] w) by done.
  destruct (init_cases w)
    as [(w' & Hc & Hi)|[(w' & Hc & Hi)|(e & w' & Hc & He & Hi)]].
  - by rewrite (bind_inr _ _ _ _ _ _ Hi).
  - rewrite (bind_inl _ _ _ _ _ _ Hi). intros Hin.
    unfold trace, prepend in Hin. simpl in Hin. in_trace Hin.
  - rewrite (bind_inl _ _ _ _ _ _ Hi). intros Hin.
    unfold trace, prepend in Hin. simpl in Hin. in_trace Hin.
Qed.

(** [main_with_spin] when the link opens: its run up to [spin], then what
    [spin] does, then the handler or the way out. *)
Lemma main_with_spin_started spin w w' :
  env_connect env SERIAL_PORT BAUD_RATE w = (inr tt, w') →
  main_with_spin env spin w
  = prepend (trace (main env w))
      (match spin (set_executor (Some MultiThreadedExecutor) constructed_node)
               w' with
       | (inl e, t, w'') =>
           if is_KeyboardInterrupt e then
             (inr tt,
              t ++ [EvLog Warn "Killing the myBuddy wrapper node...";
                    EvRemoveNode], w'')
           else (inl e, t, w'')
       | (inr tt, t, w'') => (inr tt, t, w'')
       end).
Proof.
  intros Hc.
  destruct (init_cases w)
    as [(w1 & Hc1 & Hi)|[(w1 & Hc1 & _)|(e1 & w1 & Hc1 & _ & _)]];
    rewrite Hc in Hc1; simplify_eq.
  unfold main_with_spin, main.
  rewrite !(bind_inr _ _ w tt [EvRclpyInit] w) by done.
  rewrite !(bind_inr _ _ _ _ _ _ Hi).
  unfold with_as, MyBuddy280ROSWrapper_enter, MyBuddy280ROSWrapper_exit,
    try_except, bind, ret, raise, emit, log, prepend, outcome, trace, world.
  simpl.
  destruct (spin _ w1) as [[[e|[]] t] w2]; simpl; [|by rewrite app_nil_r].
  destruct (is_KeyboardInterrupt e); simpl; [|by rewrite app_nil_r].
  by rewrite !app_nil_r.
Qed.

(** X18: a keyboard interrupt while spinning is the one clean way out:
    [main] logs the warning, removes the node from the executor and
    returns normally; it does not call [rclpy.shutdown]. *)
Theorem keyboard_interrupt_ends_main_cleanly spin w w' t w'' :
  env_connect env SERIAL_PORT BAUD_RATE w = (inr tt, w') →
  spin (set_executor (Some MultiThreadedExecutor) constructed_node) w'
  = (inl KeyboardInterrupt, t, w'') →
  main_with_spin env spin w
  = (inr tt,
     trace (main env w) ++ t
     ++ [EvLog Warn "Killing the myBuddy wrapper node..."; EvRemoveNode],
     w'')
  ∧ (EvShutdown ∉ t → EvShutdown ∉ trace (main_with_spin env spin w)).
Proof.
  intros Hc Hspin.
  assert (Hrun : main_with_spin env spin w
    = (inr tt,
       trace (main env w) ++ t
       ++ [EvLog Warn "Killing the myBuddy wrapper node..."; EvRemoveNode],
       w'')).
  { rewrite (main_with_spin_started spin w w' Hc), Hspin. reflexivity. }
  split; [done|]. intros Ht. rewrite Hrun. unfold trace at 1. simpl.
  destruct (main_port_found env w w' Hc) as (node & -> & _).
  unfold trace. simpl. rewrite !not_elem_of_cons, not_elem_of_app.
  rewrite !not_elem_of_cons. split_and!; try done. apply not_elem_of_nil.
Qed.

(** X19: any other exception that ends [spin], such as one raised by a
    callback, ends [main] too: the handler does not run, [__exit__] does
    not suppress it, the node is not removed and the exception leaves
    [main]. *)
Theorem other_exceptions_from_spin_leave_main spin w w' e t w'' :
  env_connect env SERIAL_PORT BAUD_RATE w = (inr tt, w') →
  spin (set_executor (Some MultiThreadedExecutor) constructed_node) w'
  = (inl e, t, w'') →
  is_KeyboardInterrupt e = false →
  main_with_spin env spin w = (inl e, trace (main env w) ++ t, w'').
Proof.
  intros Hc Hspin He.
  by rewrite (main_with_spin_started spin w w' Hc), Hspin, He.
Qed.

(** X20: when the construction of the node fails, whichever way, the
    executor never spins: [main] ends as the constructor did, for any
    executor. *)
Theorem failed_construction_never_spins spin w e :
  outcome (main env w) = inl e →
  main_with_spin env spin w = (inl e, trace (main env w), world (main env w))
  ∧ (EvSpin ∉ trace (main env w))
  ∧ registrations (trace (main env w)) = [].
Proof.
  unfold main_with_spin, main.
  rewrite !(bind_inr _ _ w tt [EvRclpyInit] w) by done.
  destruct (init_cases w)
    as [(w' & Hc & Hi)|[(w' & Hc & Hi)|(e1 & w' & Hc & He & Hi)]].
  - by rewrite (bind_inr _ _ _ _ _ _ Hi).
  - rewrite !(bind_inl _ _ _ _ _ _ Hi). intros [= <-].
    split_and!; [done| |done]. intros Hin.
    unfold trace, prepend in Hin. simpl in Hin. in_trace Hin.
  - rewrite !(bind_inl _ _ _ _ _ _ Hi). intros [= <-].
    split_and!; [done| |done]. intros Hin.
    unfold trace, prepend in Hin. simpl in Hin. in_trace Hin.
Qed.

End StartupShape.

(** * Beyond the claims: the properties at work on concrete runs *)

Lemma every_link_call_is_a_checked_send_witness :
  EvSendAngle 1 1 10.0%float 50
    ∈ link_calls (trace (send_joint_angles_callback demo_env scenario_L blank tt))
  ∧ ∃ part e,
      (part_id scenario_L, part) ∈ part_codes
      ∧ EvSendAngle 1 1 10.0%float 50
        = EvSendAngle part (e_joint e) (e_angle e) (e_speed e)
      ∧ 1 ≤ e_joint e ≤ 6
      ∧ angle_ok (e_angle e) = true
      ∧ 1 ≤ e_speed e ≤ 100.
Proof.
  assert (Hin : EvSendAngle 1 1 10.0%float 50
            ∈ link_calls
                (trace (send_joint_angles_callback demo_env scenario_L blank tt)))
    by apply list_elem_of_here.
  split; [exact Hin|].
  exact (every_link_call_is_a_checked_send demo_env scenario_L blank tt _ Hin).
Defined.

Lemma sends_are_the_first_entries_in_order_witness :
  (part_id scenario_L, 1) ∈ part_codes
  ∧ ∃ n,
      (n ≤ length (joint_number scenario_L))%nat
      ∧ send_calls
          (trace (send_joint_angles_callback demo_env scenario_L blank tt))
        = send_event 1 <$> take n (entries scenario_L)
      ∧ length
          (send_calls
             (trace (send_joint_angles_callback demo_env scenario_L blank tt)))
        = n
      ∧ world (send_joint_angles_callback demo_env scenario_L blank tt)
        = apply_sends demo_env 1 (take n (entries scenario_L)) tt.
Proof.
  assert (Hp : (part_id scenario_L, 1) ∈ part_codes) by part_code.
  split; [exact Hp|].
  exact (sends_are_the_first_entries_in_order demo_env scenario_L blank 1 tt Hp).
Defined.

Lemma success_means_every_entry_was_sent_witness :
  outcome (send_joint_angles_callback demo_env scenario_W blank tt)
  = inr {| result := "Success: Angles sent" |}
  ∧ ∃ part,
      (part_id scenario_W, part) ∈ part_codes
      ∧ length (entries scenario_W) = length (joint_number scenario_W)
      ∧ Forall valid_entry (entries scenario_W)
      ∧ send_calls
          (trace (send_joint_angles_callback demo_env scenario_W blank tt))
        = send_event part <$> entries scenario_W.
Proof.
  split; [reflexivity|].
  exact (success_means_every_entry_was_sent demo_env scenario_W blank tt
           {| result := "Success: Angles sent" |} eq_refl eq_refl).
Defined.

Lemma error_message_names_the_failed_check_witness :
  outcome (send_joint_angles_callback demo_env scenario_L blank tt)
  = inr {| result := "Error: Angle is out of range (-175 .. 175)" |}
  ∧ ∃ jn a,
      joint_number scenario_L !! 1%nat = Some jn ∧ 1 ≤ jn ≤ 6
      ∧ angle scenario_L !! 1%nat = Some a ∧ angle_ok a = false.
Proof.
  split; [reflexivity|].
  destruct (error_message_names_the_failed_check demo_env scenario_L blank 1 tt
              {| result := "Error: Angle is out of range (-175 .. 175)" |})
    as (_ & Hangle & _); [part_code|reflexivity|].
  exact (Hangle eq_refl).
Defined.

Lemma an_index_error_means_a_ragged_request_witness :
  outcome (send_joint_angles_callback demo_env scenario_ragged blank tt)
  = inl IndexError
  ∧ (∃ jn, joint_number scenario_ragged !! 1%nat = Some jn ∧ 1 ≤ jn ≤ 6)
  ∧ ((length (angle scenario_ragged) ≤ 1)%nat
     ∨ (length (speed scenario_ragged) ≤ 1)%nat).
Proof.
  split; [reflexivity|].
  destruct (an_index_error_means_a_ragged_request demo_env scenario_ragged
              blank tt eq_refl) as (_ & _ & Hjn & Hshort & _).
  split; [exact Hjn|exact Hshort].
Defined.

Lemma ragged_request_raises_after_sending_witness :
  Forall valid_entry (entries scenario_ragged)
  ∧ joint_number scenario_ragged !! length (entries scenario_ragged) = Some 4
  ∧ outcome (send_joint_angles_callback demo_env scenario_ragged blank tt)
    = inl IndexError
  ∧ send_calls
      (trace (send_joint_angles_callback demo_env scenario_ragged blank tt))
    = [EvSendAngle 2 3 90.0%float 20].
Proof.
  assert (Hv : Forall valid_entry (entries scenario_ragged)).
  { apply Forall_cons. split; [entry_valid|apply Forall_nil_2]. }
  destruct (ragged_request_raises_after_sending demo_env scenario_ragged
              blank 2 tt 4) as (Ho & Hs & _).
  - part_code.
  - exact Hv.
  - reflexivity.
  - lia.
  - intros a Ha. discriminate Ha.
  - split_and!; [exact Hv|reflexivity|exact Ho|exact Hs].
Defined.

Lemma checks_do_not_depend_on_the_part_witness :
  ("L", 1) ∈ part_codes ∧ ("W", 3) ∈ part_codes
  ∧ outcome (send_joint_angles_callback demo_env (with_part "L" scenario_W4)
               blank tt)
    = outcome (send_joint_angles_callback demo_env (with_part "W" scenario_W4)
                 blank tt).
Proof.
  assert (H1 : ("L", 1) ∈ part_codes) by part_code.
  assert (H3 : ("W", 3) ∈ part_codes) by part_code.
  destruct (checks_do_not_depend_on_the_part demo_env scenario_W4 blank tt
              "L" "W" 1 3 H1 H3) as [Ho _].
  split_and!; [exact H1|exact H3|exact Ho].
Defined.

Lemma every_sent_angle_is_finite_witness :
  EvSendAngle 3 4 (-175.0)%float 100
    ∈ trace (send_joint_angles_callback demo_env scenario_W4 blank tt)
  ∧ is_finite (-175.0)%float = true.
Proof.
  assert (Hin : EvSendAngle 3 4 (-175.0)%float 100
            ∈ trace (send_joint_angles_callback demo_env scenario_W4 blank tt)).
  { apply list_elem_of_further, list_elem_of_here. }
  destruct (every_sent_angle_is_finite demo_env scenario_W4 blank tt
              3 4 (-175.0)%float 100 Hin) as (_ & _ & Hfin).
  split; [exact Hin|exact Hfin].
Defined.

Lemma published_message_is_what_was_read_witness :
  EvPublish "myBuddy280/joints/angles"
    (tick_message [1.5; 2.5; 3.5; 4.5]%float six_zeros 0.0%float 0 0 0)
    ∈ trace (joint_state_callback short_env tt)
  ∧ outcome (joint_state_callback short_env tt) = inr tt.
Proof.
  assert (Hin : EvPublish "myBuddy280/joints/angles"
            (tick_message [1.5; 2.5; 3.5; 4.5]%float six_zeros 0.0%float 0 0 0)
            ∈ trace (joint_state_callback short_env tt)).
  { do 3 apply list_elem_of_further. apply list_elem_of_here. }
  destruct (published_message_is_what_was_read short_env tt _ _ Hin)
    as (x & _ & _ & _ & Ho & _).
  split; [exact Hin|exact Ho].
Defined.

Lemma published_message_is_well_formed_iff_six_angles_witness :
  EvPublish "myBuddy280/joints/angles"
    (tick_message [1.5; 2.5; 3.5; 4.5]%float six_zeros 0.0%float 0 0 0)
    ∈ trace (joint_state_callback short_env tt)
  ∧ ¬ six_angles (trace (joint_state_callback short_env tt)).
Proof.
  assert (Hin : EvPublish "myBuddy280/joints/angles"
            (tick_message [1.5; 2.5; 3.5; 4.5]%float six_zeros 0.0%float 0 0 0)
            ∈ trace (joint_state_callback short_env tt)).
  { do 3 apply list_elem_of_further. apply list_elem_of_here. }
  split; [exact Hin|].
  intros Hsix.
  apply (published_message_is_well_formed_iff_six_angles short_env tt _ _ Hin)
    in Hsix as (Hleft & _).
  simpl in Hleft. lia.
Defined.

Lemma constructed_wrapper_holds_an_open_link_witness :
  outcome (MyBuddy280ROSWrapper_init demo_env tt) = inr constructed_node
  ∧ mc constructed_node
    = Some {| mb_port := "/dev/ttyAMA0"; mb_baud := 115200 |}.
Proof.
  split; [reflexivity|].
  by destruct (constructed_wrapper_holds_an_open_link demo_env tt
                 constructed_node eq_refl) as (_ & Hmc & _).
Defined.

Lemma other_constructor_errors_are_not_handled_witness :
  env_connect bad_baud_env SERIAL_PORT BAUD_RATE tt
  = (inl (OtherError "ValueError"), tt)
  ∧ main bad_baud_env tt
    = (inl (OtherError "ValueError"),
       [EvRclpyInit;
        EvConnect "/dev/ttyAMA0" 115200 (inl (OtherError "ValueError"))], tt).
Proof.
  split; [reflexivity|].
  destruct (other_constructor_errors_are_not_handled bad_baud_env tt tt
              (OtherError "ValueError") eq_refl) as [_ Hm]; [discriminate|].
  exact Hm.
Defined.

Lemma main_spins_only_a_complete_node_witness :
  EvSpin ∈ trace (main demo_env tt)
  ∧ outcome (main demo_env tt)
    = inr (set_executor (Some MultiThreadedExecutor) constructed_node).
Proof.
  assert (Hin : EvSpin ∈ trace (main demo_env tt)).
  { do 7 apply list_elem_of_further. apply list_elem_of_here. }
  destruct (main_spins_only_a_complete_node demo_env tt Hin) as [_ Ho].
  split; [exact Hin|exact Ho].
Defined.

Lemma keyboard_interrupt_ends_main_cleanly_witness :
  env_connect demo_env SERIAL_PORT BAUD_RATE tt = (inr tt, tt)
  ∧ main_with_spin demo_env spin_interrupted tt
    = (inr tt,
       trace (main demo_env tt) ++ []
       ++ [EvLog Warn "Killing the myBuddy wrapper node..."; EvRemoveNode],
       tt).
Proof.
  split; [reflexivity|].
  by destruct (keyboard_interrupt_ends_main_cleanly demo_env spin_interrupted
                 tt tt [] tt eq_refl eq_refl) as [Hrun _].
Defined.

Lemma other_exceptions_from_spin_leave_main_witness :
  is_KeyboardInterrupt (OtherError "read timeout") = false
  ∧ main_with_spin demo_env spin_crashing tt
    = (inl (OtherError "read timeout"), trace (main demo_env tt) ++ [], tt).
Proof.
  split; [reflexivity|].
  exact (other_exceptions_from_spin_leave_main demo_env spin_crashing tt tt
           (OtherError "read timeout") [] tt eq_refl eq_refl eq_refl).
Defined.

Lemma failed_construction_never_spins_witness :
  outcome (main no_port_env tt) = inl AttributeError
  ∧ main_with_spin no_port_env spin_interrupted tt
    = (inl AttributeError, trace (main no_port_env tt),
       world (main no_port_env tt)).
Proof.
  split; [reflexivity|].
  by destruct (failed_construction_never_spins no_port_env spin_interrupted
                 tt AttributeError eq_refl) as [Hrun _].
Defined.
